(** * pdf-lib: content streams and the drawing helpers

    A shallow embedding of

    - [helpers/pdf-operators/simple] and [helpers/pdf-operators/composite]
      (the operator helpers [square], [drawRectangle], [drawSquare]), and
    - [core/pdf-structures/PDFContentStream]

    followed by the properties proved about them. *)

From Stdlib Require Import PrimFloat Uint63 Ascii String.
From Stdlib.Strings Require Import Byte.
From stdpp Require Import base option list strings pretty gmap.

(** ** JavaScript values the helpers compute with *)

Module JS.

(** A JavaScript number is an IEEE 754 binary64 value. *)
Abbreviation number := float.

(** [ToBoolean] on a number: [+0], [-0] and [NaN] are falsy. *)
Definition truthy (v : number) : bool :=
  negb (PrimFloat.eqb v 0%float || negb (PrimFloat.eqb v v)).

(** [a || d] where [a] is a [number | undefined] property. *)
Definition or_number (a : option number) (d : number) : number :=
  match a with
  | Some v => if truthy v then v else d
  | None => d
  end.

(** [a || d] where [a] is a [number[] | undefined] property: every array,
    the empty one included, is truthy. *)
Definition or_array (a : option (list number)) (d : list number) : list number :=
  match a with
  | Some l => l
  | None => d
  end.

(** lodash [get(options, 'field[i]', dflt)] on a [number[] | undefined]
    field: the element when the path resolves, [dflt] otherwise. *)
Definition get (field : option (list number)) (i : nat) (dflt : number) : number :=
  match field with
  | Some l => default dflt (l !! i)
  | None => dflt
  end.

(** lodash [isEmpty] on a [number[] | undefined] field. *)
Definition isEmpty (field : option (list number)) : bool :=
  match field with
  | Some (_ :: _) => false
  | _ => true
  end.

End JS.

(** ** Content-stream operators *)

Module Operators.
Import JS.

(** Modelled from the spec: the operator classes of [core/pdf-operators]
    (q, Q, cm, w, re, h, S, f, B, n, rg, RG) are not among the sources. By
    section 4.4 each operator is a tagged variant: a keyword with a fixed
    number of operands. [X_of] stands for [X.of(...)], [X_operator] for the
    operand-free singleton [X.operator]. *)
Inductive PDFOperator :=
| q_operator
| Q_operator
| cm_of (a b c d e f : number)
| w_of (lineWidth : number)
| re_of (x y width height : number)
| h_operator
| S_operator
| f_operator
| B_operator
| n_operator
| rg_of (r g b : number)
| RG_of (r g b : number).

(** *** helpers/pdf-operators/simple *)

Definition translate (xPos yPos : number) : PDFOperator :=
  cm_of 1 0 0 1 xPos yPos.
Definition scale (xPos yPos : number) : PDFOperator :=
  cm_of xPos 0 0 yPos 0 0.
Definition popGraphicsState : PDFOperator := Q_operator.
Definition pushGraphicsState : PDFOperator := q_operator.
Definition lineWidth : number -> PDFOperator := w_of.
Definition closePath : PDFOperator := h_operator.
Definition rectangle : number -> number -> number -> number -> PDFOperator := re_of.
Definition square (xPos yPos size : number) : PDFOperator :=
  rectangle xPos yPos size size.
Definition stroke : PDFOperator := S_operator.
Definition fill : PDFOperator := f_operator.
Definition fillAndStroke : PDFOperator := B_operator.
Definition endPath : PDFOperator := n_operator.
Definition fillingRgbColor : number -> number -> number -> PDFOperator := rg_of.
Definition strokingRgbColor : number -> number -> number -> PDFOperator := RG_of.

(** Classification used to state which operators a sequence contains. *)
Definition is_fill_color (op : PDFOperator) : bool :=
  match op with rg_of _ _ _ => true | _ => false end.
Definition is_stroke_color (op : PDFOperator) : bool :=
  match op with RG_of _ _ _ => true | _ => false end.
Definition is_paint (op : PDFOperator) : bool :=
  match op with
  | S_operator | f_operator | B_operator | n_operator => true
  | _ => false
  end.

End Operators.

(** ** helpers/pdf-operators/composite *)

Module IDrawRectangleOptions.
(** An absent property is [None]. *)
Record t := mk {
  x : option float;
  y : option float;
  width : option float;
  height : option float;
  borderWidth : option float;
  colorRgb : option (list float);
  borderColorRgb : option (list float);
}.

(** The object literal [{}]. *)
Definition empty : t := mk None None None None None None None.
End IDrawRectangleOptions.

Module IDrawSquareOptions.
Record t := mk {
  x : option float;
  y : option float;
  size : option float;
  borderWidth : option float;
  colorRgb : option (list float);
  borderColorRgb : option (list float);
}.

Definition empty : t := mk None None None None None None.
End IDrawSquareOptions.

Module Composite.
Import JS Operators.

Definition drawRectangle (options : IDrawRectangleOptions.t) : list PDFOperator :=
  let colorRgb := IDrawRectangleOptions.colorRgb options in
  let borderColorRgb := IDrawRectangleOptions.borderColorRgb options in
  [ pushGraphicsState;
    fillingRgbColor (get colorRgb 0 0) (get colorRgb 1 0) (get colorRgb 2 0);
    strokingRgbColor
      (get borderColorRgb 0 0) (get borderColorRgb 1 0) (get borderColorRgb 2 0);
    lineWidth (or_number (IDrawRectangleOptions.borderWidth options) 15);
    rectangle
      (or_number (IDrawRectangleOptions.x options) 0)
      (or_number (IDrawRectangleOptions.y options) 0)
      (or_number (IDrawRectangleOptions.width options) 150)
      (or_number (IDrawRectangleOptions.height options) 100);
    (if negb (isEmpty colorRgb) && negb (isEmpty borderColorRgb) then fillAndStroke
     else if negb (isEmpty colorRgb) then fill
     else if negb (isEmpty borderColorRgb) then stroke
     else closePath);
    popGraphicsState ].

Definition drawSquare (options : IDrawSquareOptions.t) : list PDFOperator :=
  drawRectangle
    {| IDrawRectangleOptions.x :=
         Some (or_number (IDrawSquareOptions.x options) 0);
       IDrawRectangleOptions.y :=
         Some (or_number (IDrawSquareOptions.y options) 0);
       IDrawRectangleOptions.width :=
         Some (or_number (IDrawSquareOptions.size options) 100);
       IDrawRectangleOptions.height :=
         Some (or_number (IDrawSquareOptions.size options) 100);
       IDrawRectangleOptions.borderWidth :=
         Some (or_number (IDrawSquareOptions.borderWidth options) 15);
       IDrawRectangleOptions.colorRgb :=
         Some (or_array (IDrawSquareOptions.colorRgb options) []);
       IDrawRectangleOptions.borderColorRgb :=
         Some (or_array (IDrawSquareOptions.borderColorRgb options) []) |}.

(** *** Notions the properties are stated with *)

(** A color option that is supplied with at least one component. *)
Definition non_empty (c : option (list number)) : Prop :=
  exists v l, c = Some (v :: l).

(** A color option that is absent or the empty array. *)
Definition absent_or_empty (c : option (list number)) : Prop :=
  c = None \/ c = Some [].

End Composite.

(** ** Typed arrays and the objects written into them *)

Module Uint8Array.

(** A [Uint8Array] view that reaches to the end of its underlying buffer
    (the only views [new Uint8Array(n)] and [subarray(begin)] produce):
    the bytes of the whole buffer and the offset at which the view starts. *)
Record t := mk { buffer : list byte; byteOffset : nat }.

(** [new Uint8Array(n)] *)
Definition new (n : nat) : t := mk (replicate n "000"%byte) 0.

(** [a.length] *)
Definition length (a : t) : nat := List.length (buffer a) - byteOffset a.

(** [a[i] = b]: a store past the end of the view is ignored. *)
Definition set (a : t) (i : nat) (b : byte) : t :=
  if decide (i < length a)
  then mk (<[byteOffset a + i := b]> (buffer a)) (byteOffset a)
  else a.

(** [a.subarray(begin)]: the same buffer, [begin] clamped to the length. *)
Definition subarray (a : t) (begin : nat) : t :=
  mk (buffer a) (byteOffset a + begin `min` length a).

(** The bytes the buffer holds between the start of [a] and the start of
    the later view [r]. *)
Definition written (a r : t) : list byte :=
  take (byteOffset r - byteOffset a) (drop (byteOffset a) (buffer r)).

End Uint8Array.

Module PDFObject.

(** The two methods every [PDFObject] subclass implements; [copyBytesInto]
    returns the view that remains after the bytes it wrote. *)
Class methods (A : Type) := {
  bytesSize : A -> nat;
  copyBytesInto : A -> Uint8Array.t -> Uint8Array.t;
}.

End PDFObject.

Module Utils.

Definition LF : string := String (ascii_of_nat 10) EmptyString.

Fixpoint write_from (i : nat) (codes : list byte) (buffer : Uint8Array.t)
  : Uint8Array.t :=
  match codes with
  | [] => buffer
  | c :: codes' => write_from (S i) codes' (Uint8Array.set buffer i c)
  end.

(** Modelled from the spec: [addStringToBuffer] of [utils] is not among the
    sources. As [copyBytesInto] uses it (section 4.3: the stream and end
    delimiters are written between the dictionary and the operators), it
    stores the character codes of [str] at the start of [buffer] and returns
    [buffer.subarray(str.length)]. *)
Definition addStringToBuffer (str : string) (buffer : Uint8Array.t)
  : Uint8Array.t :=
  Uint8Array.subarray
    (write_from 0 (list_byte_of_string str) buffer) (String.length str).

End Utils.

(** ** Errors *)

Inductive Error :=
| TypeValidation (msg : string)  (** [validate] rejected a value *)
| TypeError                      (** the run time's own [TypeError] *)
| UnresolvedReference            (** a reference the index does not hold *)
| MissingLength.                 (** a stream dictionary without [Length] *)

Inductive result (A : Type) :=
| Ok (a : A)
| Err (e : Error).
Arguments Ok {A} a.
Arguments Err {A} e.

#[export] Instance result_ret : MRet result := fun A a => Ok a.
#[export] Instance result_bind : MBind result := fun A B f m =>
  match m with
  | Ok a => f a
  | Err e => Err e
  end.

(** [l.reduce(f, init)] with a callback that can throw. *)
Fixpoint reduceM {A B : Type} (f : B -> A -> result B) (l : list A) (init : B)
  : result B :=
  match l with
  | [] => Ok init
  | a :: l' => b ← f init a; reduceM f l' b
  end.

(** ** Dictionaries and the object index *)

Module PDFDictionary.

(** Modelled from the spec: [PDFNumber], [PDFIndirectReference],
    [PDFDictionary] and [PDFObjectIndex] of [core/pdf-objects] are not among
    the sources. By section 3 a dictionary maps names to objects or
    references, and a reference is an (object number, generation) pair
    looked up in the index. Of an object the content stream only touches
    its [number] property: [PDFNumber] has one, and an object of another
    class has one once it was assigned. *)
Inductive object :=
| PDFNumber (number : nat)
| other (number : option nat).

Inductive entry :=
| direct (o : object)
| reference (ref : nat * nat).

Record t := mk {
  map : gmap string entry;
  index : gmap (nat * nat) object;
}.

(** [dict.get(key)]; [None] is [undefined]. *)
Definition get (key : string) (dict : t) : option entry := map dict !! key.

(** [dict.set(key, value)] *)
Definition set (key : string) (value : entry) (dict : t) : t :=
  mk (<[key := value]> (map dict)) (index dict).

(** Modelled from the spec: [PDFObjectIndex.lookup] (section 4.1) fails
    with [UnresolvedReference] when the reference has no entry; what is
    not a reference is its own value. *)
Definition lookup (dict : t) (ref : option entry) : result (option object) :=
  match ref with
  | None => Ok None
  | Some (direct o) => Ok (Some o)
  | Some (reference r) =>
      match index dict !! r with
      | Some o => Ok (Some o)
      | None => Err UnresolvedReference
      end
  end.

(** [o.number] *)
Definition number (o : option object) : result (option nat) :=
  match o with
  | None => Err TypeError
  | Some (PDFNumber n) => Ok (Some n)
  | Some (other n) => Ok n
  end.

Definition with_number (o : object) (v : nat) : object :=
  match o with
  | PDFNumber _ => PDFNumber v
  | other _ => other (Some v)
  end.

End PDFDictionary.

(** ** core/pdf-structures/PDFContentStream *)

Module PDFContentStream.
Import JS.

Section Defs.
(** The operator objects and the dictionary are used through the methods
    of [PDFObject] only. *)
Context {PDFOperator : Type}.
Context `{!PDFObject.methods PDFOperator}.
Context `{!PDFObject.methods PDFDictionary.t}.

(** The values a caller can pass where the types ask for operators. *)
#[warnings="-register-all"]
Inductive JSValue :=
| VUndefined
| VNull
| VBoolean (b : bool)
| VNumber (n : number)
| VString (s : string)
| VOperator (op : PDFOperator)
| VArray (elements : list JSValue)
| VObject.

(** [Boolean(v)] *)
Definition Boolean (v : JSValue) : bool :=
  match v with
  | VUndefined | VNull => false
  | VBoolean b => b
  | VNumber n => truthy n
  | VString s => negb (bool_decide (s = EmptyString))
  | VOperator _ | VArray _ | VObject => true
  end.

(** lodash [isNumber]: every value of type number, [NaN] included. *)
Definition isNumber (v : JSValue) : bool :=
  match v with VNumber _ => true | _ => false end.

(** lodash [flatten]: one level. *)
Definition flatten (array : list JSValue) : list JSValue :=
  array ≫= (fun v => match v with VArray elements => elements | _ => [v] end).

(** *** utils/validate *)

(** Modelled from the spec: [isInstance], [isArrayOf], [or] and
    [validateArr] of [utils] are not among the sources. Section 7: a
    value of the wrong type fails with [TypeValidation], raised before
    anything is changed. *)
Definition isInstance_PDFOperator (v : JSValue) : bool :=
  match v with VOperator _ => true | _ => false end.

Definition isArrayOf_PDFOperator (v : JSValue) : bool :=
  match v with
  | VArray elements => forallb isInstance_PDFOperator elements
  | _ => false
  end.

Definition or (p q : JSValue -> bool) (v : JSValue) : bool := p v || q v.

Definition validateArr (value : list JSValue) (predicate : JSValue -> bool)
    (msg : string) : result unit :=
  if forallb predicate value then Ok tt else Err (TypeValidation msg).

(** *** The stream object *)

Record t := mk {
  dictionary : PDFDictionary.t;
  operators : list JSValue;
}.

Definition set_dictionary (this : t) (dict : PDFDictionary.t) : t :=
  mk dict (operators this).
Definition set_operators (this : t) (ops : list JSValue) : t :=
  mk (dictionary this) ops.

(** [get Length()] *)
Definition Length (this : t) : result (option PDFDictionary.object) :=
  let Length := PDFDictionary.get "Length" (dictionary this) in
  PDFDictionary.lookup (dictionary this) Length.

(** [op.bytesSize()] on an element of the array *)
Definition op_bytesSize (op : JSValue) : result nat :=
  match op with
  | VOperator o => Ok (PDFObject.bytesSize o)
  | _ => Err TypeError
  end.

(** [op.copyBytesInto(remBytes)] on an element of the array *)
Definition op_copyBytesInto (remBytes : Uint8Array.t) (op : JSValue)
  : result Uint8Array.t :=
  match op with
  | VOperator o => Ok (PDFObject.copyBytesInto o remBytes)
  | _ => Err TypeError
  end.

Definition operatorsBytesSize (this : t) : result nat :=
  sizes ← mapM op_bytesSize (List.filter Boolean (operators this));
  Ok (foldl Nat.add 0 sizes).

Definition bytesSize (this : t) : result nat :=
  n ← operatorsBytesSize this;
  Ok (PDFObject.bytesSize (dictionary this)
      + 1 (* "\n" *)
      + 7 (* "stream\n" *)
      + n
      + 10 (* \nendstream *)).

(** Modelled from the spec: [PDFStream.validateDictionary] is not among
    the sources. Section 3: a stream must carry a [Length] entry. The text
    of its error is not in the sources either. *)
Definition validateDictionary (this : t) : result unit :=
  match PDFDictionary.get "Length" (dictionary this) with
  | Some _ => Ok tt
  | None => Err MissingLength
  end.

Definition copyBytesInto (this : t) (buffer : Uint8Array.t)
  : result Uint8Array.t :=
  _ ← validateDictionary this;
  let remaining := PDFObject.copyBytesInto (dictionary this) buffer in
  let remaining :=
    Utils.addStringToBuffer (Utils.LF +:+ "stream" +:+ Utils.LF) remaining in
  remaining ←
    reduceM op_copyBytesInto (List.filter Boolean (operators this)) remaining;
  let remaining :=
    Utils.addStringToBuffer (Utils.LF +:+ "endstream") remaining in
  Ok remaining.

(** [this.Length.number = v]: the object is changed where it lives, in
    the dictionary or in the index. *)
Definition assign_Length_number (this : t) (v : nat) : result t :=
  let dict := dictionary this in
  match PDFDictionary.get "Length" dict with
  | None => Err TypeError
  | Some (PDFDictionary.direct o) =>
      Ok (set_dictionary this
            (PDFDictionary.set "Length"
               (PDFDictionary.direct (PDFDictionary.with_number o v)) dict))
  | Some (PDFDictionary.reference r) =>
      match PDFDictionary.index dict !! r with
      | None => Err UnresolvedReference
      | Some o =>
          Ok (set_dictionary this
                (PDFDictionary.mk (PDFDictionary.map dict)
                   (<[r := PDFDictionary.with_number o v]>
                      (PDFDictionary.index dict))))
      end
  end.

(** *** The proxy around [operators] *)

(** The property keys an array is written at. *)
Inductive PropertyKey :=
| index_key (i : nat)
| length_key.

(** [Number(property)]: the index, or [NaN] for ["length"]. *)
Definition Number (property : PropertyKey) : number :=
  match property with
  | index_key i => PrimFloat.of_uint63 (Uint63.of_Z (Z.of_nat i))
  | length_key => nan
  end.

(** The [set] callback the constructor hands to [typedArrayProxy]. *)
Definition on_set (this : t) (property : PropertyKey) : result t :=
  if isNumber (VNumber (Number property)) then
    _ ← Length this;
    size ← operatorsBytesSize this;
    assign_Length_number this size
  else Ok this.

(** [target[i] = value] on an array: a store past the end extends the
    array, the slots in between are empty and read as [undefined]. *)
Definition array_set (target : list JSValue) (i : nat) (value : JSValue)
  : list JSValue :=
  if decide (i < length target)
  then <[i := value]> target
  else resize i VUndefined target ++ [value].

(** A store through the proxy: of an operator at an index, or of a length.
    (The proxy refuses an element that is not a [PDFOperator]; the stores
    here are those the type of [operators] allows.) *)
Inductive Store :=
| store_index (i : nat) (value : PDFOperator)
| store_length (len : nat).

(** Modelled from the spec: [typedArrayProxy] of [utils/proxies] is not
    among the sources. Sections 4.3 and 9: the proxy intercepts every
    store to the operator sequence and runs the [set] callback it was
    given. The spec does not say in which order; the program runs the
    callback first, on the array as it is before the store, and does the
    store when the callback has returned: a callback that throws leaves
    the array as it was. *)
Definition proxy_set (this : t) (s : Store) : result t :=
  match s with
  | store_index i value =>
      this ← on_set this (index_key i);
      Ok (set_operators this (array_set (operators this) i (VOperator value)))
  | store_length len =>
      this ← on_set this length_key;
      Ok (set_operators this (resize len VUndefined (operators this)))
  end.

(** [stream.operators.push(value)]: [Array.prototype.push] stores the
    element at the old length and then stores the new length. *)
Definition push (this : t) (value : PDFOperator) : result t :=
  let len := length (operators this) in
  this ← proxy_set this (store_index len value);
  proxy_set this (store_length (S len)).

(** *** constructor *)

Definition constructor (dictionary : PDFDictionary.t)
    (operators : list JSValue) : result t :=
  _ ← validateArr operators
        (or isInstance_PDFOperator isArrayOf_PDFOperator)
        "PDFContentStream requires PDFOperators or PDFOperator[]s to be constructed.";
  let this := mk dictionary (flatten operators) in
  size ← operatorsBytesSize this;
  Ok (set_dictionary this
        (PDFDictionary.set "Length"
           (PDFDictionary.direct (PDFDictionary.PDFNumber size)) dictionary)).

(** [static of] ([of] is a keyword here) *)
Definition of_ (dict : PDFDictionary.t) (operators : list JSValue) : result t :=
  constructor dict operators.

(** [static validateOperators] *)
Definition validateOperators (elements : list JSValue) : result unit :=
  validateArr elements isInstance_PDFOperator
    "Only PDFOperators can be pushed to a PDFContentStream.".

(** *** Client code: a constructed stream and stores through its proxy *)

Inductive Mutation :=
| assign (i : nat) (value : PDFOperator)  (** [operators[i] = value] *)
| append (value : PDFOperator)            (** [operators.push(value)] *)
| set_length (len : nat).                 (** [operators.length = len] *)

Definition mutate (this : t) (m : Mutation) : result t :=
  match m with
  | assign i value => proxy_set this (store_index i value)
  | append value => push this value
  | set_length len => proxy_set this (store_length len)
  end.

Definition build (dictionary : PDFDictionary.t) (operators : list JSValue)
    (ms : list Mutation) : result t :=
  this ← constructor dictionary operators;
  reduceM mutate ms this.

(** [stream.Length.number] *)
Definition Length_number (this : t) : result (option nat) :=
  Length this ≫= PDFDictionary.number.

(** *** Notions the properties are stated with *)

(** The operators in the sequence, empty slots left out. *)
Definition present_operators (ops : list JSValue) : list PDFOperator :=
  omap (fun v => match v with VOperator o => Some o | _ => None end) ops.

(** The sum of the byte sizes of the operators in the sequence. *)
Definition operators_size (ops : list JSValue) : nat :=
  sum_list (PDFObject.bytesSize <$> present_operators ops).

(** The arguments the constructor's type asks for: a [PDFOperator] or a
    [PDFOperator[]]. *)
Inductive Argument :=
| single (o : PDFOperator)
| group (os : list PDFOperator).

Definition to_value (a : Argument) : JSValue :=
  match a with
  | single o => VOperator o
  | group os => VArray (VOperator <$> os)
  end.

Definition members (a : Argument) : list PDFOperator :=
  match a with
  | single o => [o]
  | group os => os
  end.

(** A value that is a [PDFOperator] or an array of [PDFOperator]s. *)
Definition valid_argument (v : JSValue) : Prop := exists a, v = to_value a.

(** A slot of the operator array: an operator, or empty. *)
Definition slot (v : JSValue) : Prop := v = VUndefined \/ exists o, v = VOperator o.

(** Every slot of the array holds an operator or is empty, and the [Length]
    entry is a number object of the dictionary's own. *)
Record invariant (this : t) : Prop := {
  inv_slots : Forall slot (operators this);
  inv_Length :
    exists n,
      PDFDictionary.get "Length" (dictionary this)
      = Some (PDFDictionary.direct (PDFDictionary.PDFNumber n));
}.

End Defs.

Arguments JSValue : clear implicits.
Arguments t : clear implicits.
Arguments Mutation : clear implicits.
Arguments Store : clear implicits.
Arguments Argument : clear implicits.

End PDFContentStream.

(** ** A concrete encoding to run the model on *)

Module Example.
Import PDFContentStream.

(** An operator given by its encoded text. *)
Record RawOperator := raw { encoding : string }.

#[export] Instance raw_methods : PDFObject.methods RawOperator := {|
  PDFObject.bytesSize o := String.length (encoding o);
  PDFObject.copyBytesInto o buffer := Utils.addStringToBuffer (encoding o) buffer;
|}.

(** A dictionary printed with its [Length] entry only. *)
Definition dictionary_text (dict : PDFDictionary.t) : string :=
  match PDFDictionary.get "Length" dict with
  | Some (PDFDictionary.direct (PDFDictionary.PDFNumber n)) =>
      "<< /Length " +:+ pretty n +:+ " >>"
  | _ => "<< >>"
  end.

#[export] Instance dictionary_methods : PDFObject.methods PDFDictionary.t := {|
  PDFObject.bytesSize dict := String.length (dictionary_text dict);
  PDFObject.copyBytesInto dict buffer :=
    Utils.addStringToBuffer (dictionary_text dict) buffer;
|}.

Definition no_entries : PDFDictionary.t := PDFDictionary.mk ∅ ∅.

Definition arguments : list (JSValue RawOperator) :=
  [ VOperator (raw "q");
    VArray [VOperator (raw "0 0 150 100 re"); VOperator (raw "h")] ].

Definition mutations : list (Mutation RawOperator) :=
  [ append (raw "Q"); assign 2 (raw "f") ].

(** The stream [PDFContentStream.of(dict, ...arguments)] after the
    [mutations]. *)
Definition drawn : PDFContentStream.t RawOperator :=
  PDFContentStream.mk
    (PDFDictionary.set "Length"
       (PDFDictionary.direct (PDFDictionary.PDFNumber 17)) no_entries)
    [ VOperator (raw "q"); VOperator (raw "0 0 150 100 re");
      VOperator (raw "f"); VOperator (raw "Q") ].

(** A dictionary with entries of its own, a stale [Length] among them. *)
Definition page_contents : PDFDictionary.t :=
  PDFDictionary.mk
    (<["Length" := PDFDictionary.reference (7, 0)]>
       (<["Filter" := PDFDictionary.direct (PDFDictionary.other None)]> ∅))
    (<[(7, 0) := PDFDictionary.PDFNumber 99]> ∅).

(** The stream [PDFContentStream.of(dict, q)] after
    [operators[0] = re], where [re] has 10 bytes. *)
Definition reassigned : PDFContentStream.t RawOperator :=
  PDFContentStream.mk
    (PDFDictionary.set "Length"
       (PDFDictionary.direct (PDFDictionary.PDFNumber 1)) no_entries)
    [ VOperator (raw "0 0 1 1 re") ].

(** A stream whose [Length] entry was made a reference into the index. *)
Definition referring : PDFContentStream.t RawOperator :=
  PDFContentStream.mk page_contents [VOperator (raw "q")].

End Example.

(** ** Sequences of calls of the composite helpers *)

Module Drawing.
Import JS Operators Composite.

(** A call of one of the helpers of [helpers/pdf-operators/composite]. *)
Inductive Call :=
| rectangle_call (options : IDrawRectangleOptions.t)
| square_call (options : IDrawSquareOptions.t).

Definition draw (c : Call) : list PDFOperator :=
  match c with
  | rectangle_call options => drawRectangle options
  | square_call options => drawSquare options
  end.

(** The depth of the graphics-state stack after [ops], starting at depth
    [d]: q pushes, Q pops, and a Q on the empty stack has no meaning. *)
Fixpoint depth_after (d : nat) (ops : list PDFOperator) : option nat :=
  match ops with
  | [] => Some d
  | q_operator :: ops' => depth_after (S d) ops'
  | Q_operator :: ops' =>
      match d with
      | 0 => None
      | S d' => depth_after d' ops'
      end
  | _ :: ops' => depth_after d ops'
  end.

(** A color as [drawRectangle] reads it: a non-empty array cut or padded
    with 0 to three components; an absent or empty one is left as it is. *)
Definition three_components (c : option (list number)) : option (list number) :=
  match c with
  | Some (v :: l) => Some (resize 3 0%float (v :: l))
  | _ => c
  end.

End Drawing.

(** ** Notions for the stores and the bytes of a content stream *)

Module Bytes.

(** The bytes [bs] stored at the start of [buffer], and the view that
    remains: what [addStringToBuffer] does with the character codes of its
    string. *)
Definition write_bytes (bs : list byte) (buffer : Uint8Array.t) : Uint8Array.t :=
  Uint8Array.subarray (Utils.write_from 0 bs buffer) (length bs).

(** [copyBytesInto] of [o] stores the bytes [bs] and returns the rest. *)
Definition writes `{PDFObject.methods A} (o : A) (bs : list byte) : Prop :=
  forall buffer : Uint8Array.t,
    PDFObject.copyBytesInto o buffer = write_bytes bs buffer.

(** [o] writes exactly the number of bytes its [bytesSize] reports: the
    bytes [bs]. *)
Definition writes_its_size `{PDFObject.methods A} (o : A) (bs : list byte)
  : Prop :=
  writes o bs /\ PDFObject.bytesSize o = length bs.

(** A view that starts inside its buffer. *)
Definition well_formed (a : Uint8Array.t) : Prop :=
  Uint8Array.byteOffset a <= length (Uint8Array.buffer a).

End Bytes.

Module Stores.
Import PDFContentStream.

Section Defs.
Context {PDFOperator : Type}.
Context `{!PDFObject.methods PDFOperator}.
Context `{!PDFObject.methods PDFDictionary.t}.

(** The stream over [dict] and [ops] whose [Length] entry is a number
    object that holds [n]. *)
Definition with_Length (dict : PDFDictionary.t) (n : nat)
    (ops : list (JSValue PDFOperator)) : PDFContentStream.t PDFOperator :=
  PDFContentStream.mk
    (PDFDictionary.set "Length"
       (PDFDictionary.direct (PDFDictionary.PDFNumber n)) dict)
    ops.

(** The stream over [dict] and [ops] whose [Length] entry is the number
    object that holds the size of [ops]. *)
Definition synced (dict : PDFDictionary.t) (ops : list (JSValue PDFOperator))
  : PDFContentStream.t PDFOperator :=
  PDFContentStream.mk
    (PDFDictionary.set "Length"
       (PDFDictionary.direct (PDFDictionary.PDFNumber (operators_size ops)))
       dict)
    ops.

(** The stream over [dict] and [ops] when the [Length] entry of [dict] is
    a reference: the number object that [ref] names in the index holds
    [n]. *)
Definition with_Length_at (ref : nat * nat) (dict : PDFDictionary.t) (n : nat)
    (ops : list (JSValue PDFOperator)) : PDFContentStream.t PDFOperator :=
  PDFContentStream.mk
    (PDFDictionary.mk (PDFDictionary.map dict)
       (<[ref := PDFDictionary.PDFNumber n]> (PDFDictionary.index dict)))
    ops.

(** The bytes of a stream whose dictionary writes [dict_bytes] and whose
    operators write [enc]: the dictionary, a line feed, [stream], a line
    feed, the operators in the order of the sequence (empty slots left
    out), a line feed and [endstream]. *)
Definition stream_bytes (dict_bytes : list byte) (enc : PDFOperator -> list byte)
    (this : PDFContentStream.t PDFOperator) : list byte :=
  dict_bytes
    ++ list_byte_of_string (Utils.LF +:+ "stream" +:+ Utils.LF)
    ++ mjoin (enc <$> present_operators (operators this))
    ++ list_byte_of_string (Utils.LF +:+ "endstream").

(** What a slot of the array adds to the size: an empty one adds nothing. *)
Definition slot_size (v : JSValue PDFOperator) : nat :=
  match v with
  | VOperator o => PDFObject.bytesSize o
  | _ => 0
  end.

End Defs.
End Stores.

(** ** core/pdf-structures/PDFObjectStream *)

Module PDFObjectStream.

Section Defs.
(** Modelled from the spec: [PDFIndirectObject] of [core/pdf-objects] is not
    among the sources; section 3: it wraps a registered object with its
    number and generation. The stream only tests for its class. *)
Context {PDFIndirectObject : Type}.

(** The values a caller can pass for the dictionary and for the objects. *)
Inductive JSValue :=
| VUndefined
| VDictionary (dict : PDFDictionary.t)
| VIndirectObject (object : PDFIndirectObject)
| VObject.

Definition isInstance_PDFDictionary (v : JSValue) : bool :=
  match v with VDictionary _ => true | _ => false end.

Definition isInstance_PDFIndirectObject (v : JSValue) : bool :=
  match v with VIndirectObject _ => true | _ => false end.

(** Modelled from the spec: [validate] and [validateArr] of [utils/validate]
    are not among the sources (section 7: [TypeValidation], raised before
    anything is changed). *)
Definition validate (value : JSValue) (predicate : JSValue -> bool)
    (msg : string) : result unit :=
  if predicate value then Ok tt else Err (TypeValidation msg).

Definition validateArr (value : list JSValue) (predicate : JSValue -> bool)
    (msg : string) : result unit :=
  if forallb predicate value then Ok tt else Err (TypeValidation msg).

Record t := mk {
  dict : JSValue;
  objects : list JSValue;
}.

Definition constructor (dictionary : JSValue) (objects : list JSValue)
  : result t :=
  _ ← validate dictionary isInstance_PDFDictionary
        "PDFObjectStream.dictionary must be a PDFDictionary";
  _ ← validateArr objects isInstance_PDFIndirectObject
        "PDFObjectStream.objects must be an array of PDFIndirectObject";
  Ok (mk dictionary objects).

(** [static from] *)
Definition from (dictionary : JSValue) (objects : list JSValue) : result t :=
  constructor dictionary objects.

End Defs.

Arguments JSValue : clear implicits.
Arguments t : clear implicits.

End PDFObjectStream.

(** * Properties *)

(** ** The drawing helpers *)

Section DrawingHelpers.
Import JS Operators Composite.

Lemma isEmpty_non_empty c : non_empty c -> isEmpty c = false.
Proof. intros (v & l & ->). reflexivity. Qed.

Lemma isEmpty_absent_or_empty c : absent_or_empty c -> isEmpty c = true.
Proof. intros [-> | ->]; reflexivity. Qed.

Lemma get_absent_or_empty c i d : absent_or_empty c -> get c i d = d.
Proof. intros [-> | ->]; [reflexivity | by destruct i]. Qed.

Lemma or_number_idempotent a d :
  or_number (Some (or_number a d)) d = or_number a d.
Proof.
  destruct a as [v |]; simpl.
  - destruct (truthy v) eqn:Hv; [by rewrite Hv | by destruct (truthy d)].
  - by destruct (truthy d).
Qed.

Lemma or_number_truthy_default a d d' :
  truthy d = true -> or_number (Some (or_number a d)) d' = or_number a d.
Proof.
  intros Hd. destruct a as [v |]; simpl; [| by rewrite Hd].
  destruct (truthy v) eqn:Hv; [by rewrite Hv | by rewrite Hd].
Qed.

Lemma get_or_array c i d : get (Some (or_array c [])) i d = get c i d.
Proof. destruct c; [reflexivity | by destruct i]. Qed.

Lemma isEmpty_or_array c : isEmpty (Some (or_array c [])) = isEmpty c.
Proof. by destruct c. Qed.

(** The helpers on concrete options. *)
Example drawRectangle_all_options :
  drawRectangle
    (IDrawRectangleOptions.mk (Some 25) (Some 50) (Some 1000) (Some 500)
       (Some 25) (Some [0.25; 1; 0.75]) (Some [0.75; 0.25; 1]))%float
  = [ q_operator; rg_of 0.25 1 0.75; RG_of 0.75 0.25 1; w_of 25;
      re_of 25 50 1000 500; B_operator; Q_operator ].
Proof. reflexivity. Qed.

Example drawRectangle_short_color :
  drawRectangle
    (IDrawRectangleOptions.mk None None (Some nan) (Some (-0)) None
       (Some [0.5]) None)%float
  = [ q_operator; rg_of 0.5 0 0; RG_of 0 0 0; w_of 15; re_of 0 0 150 100;
      f_operator; Q_operator ].
Proof. reflexivity. Qed.

Example drawSquare_no_options :
  drawSquare IDrawSquareOptions.empty
  = [ q_operator; rg_of 0 0 0; RG_of 0 0 0; w_of 15; re_of 0 0 100 100;
      h_operator; Q_operator ].
Proof. reflexivity. Qed.

(** C3: the operator in the sixth position of [drawRectangle options] is
    fill-and-stroke (B) when both [colorRgb] and [borderColorRgb] are
    non-empty, fill (f) when only [colorRgb] is, stroke (S) when only
    [borderColorRgb] is, and path-close (h), with no paint operator in the
    sequence, when both are absent or empty. *)
Theorem drawRectangle_paint_policy (options : IDrawRectangleOptions.t) :
  let colorRgb := IDrawRectangleOptions.colorRgb options in
  let borderColorRgb := IDrawRectangleOptions.borderColorRgb options in
  (non_empty colorRgb -> non_empty borderColorRgb ->
     drawRectangle options !! 5 = Some B_operator) /\
  (non_empty colorRgb -> absent_or_empty borderColorRgb ->
     drawRectangle options !! 5 = Some f_operator) /\
  (absent_or_empty colorRgb -> non_empty borderColorRgb ->
     drawRectangle options !! 5 = Some S_operator) /\
  (absent_or_empty colorRgb -> absent_or_empty borderColorRgb ->
     drawRectangle options !! 5 = Some h_operator /\
     Forall (fun op => is_paint op = false) (drawRectangle options)).
Proof.
  destruct options as [x y w h bw c b]; simpl.
  split; [| split; [| split]]; intros Hc Hb;
    repeat match goal with
      | H : non_empty _ |- _ => apply isEmpty_non_empty in H
      | H : absent_or_empty _ |- _ => apply isEmpty_absent_or_empty in H
      end;
    unfold drawRectangle; simpl; rewrite Hc, Hb; simpl; try reflexivity.
  split; [reflexivity | repeat constructor].
Qed.

Lemma drawRectangle_paint_policy_witness :
  drawRectangle
    (IDrawRectangleOptions.mk None None None None None
       (Some [1; 0; 0]%float) (Some [0; 0; 1]%float)) !! 5 = Some B_operator
  /\ drawRectangle
       (IDrawRectangleOptions.mk None None None None None (Some [1; 0; 0]%float) None)
       !! 5 = Some f_operator
  /\ drawRectangle
       (IDrawRectangleOptions.mk None None None None None (Some []) (Some [0; 0; 1]%float))
       !! 5 = Some S_operator
  /\ drawRectangle IDrawRectangleOptions.empty !! 5 = Some h_operator.
Proof.
  split; [| split; [| split]].
  - apply (drawRectangle_paint_policy
             (IDrawRectangleOptions.mk None None None None None
                (Some [1; 0; 0]%float) (Some [0; 0; 1]%float))); simpl;
      eexists _, _; reflexivity.
  - apply (drawRectangle_paint_policy
             (IDrawRectangleOptions.mk None None None None None
                (Some [1; 0; 0]%float) None)); simpl;
      [eexists _, _; reflexivity | left; reflexivity].
  - apply (drawRectangle_paint_policy
             (IDrawRectangleOptions.mk None None None None None
                (Some []) (Some [0; 0; 1]%float))); simpl;
      [right; reflexivity | eexists _, _; reflexivity].
  - apply (drawRectangle_paint_policy IDrawRectangleOptions.empty); simpl;
      left; reflexivity.
Defined.

(** C4: with both colors absent or empty and every other option absent,
    [drawRectangle] returns q, rg(0,0,0), RG(0,0,0), w(15), re(0,0,150,100),
    h and Q, in this order. *)
Theorem drawRectangle_no_options (colorRgb borderColorRgb : option (list number)) :
  absent_or_empty colorRgb -> absent_or_empty borderColorRgb ->
  drawRectangle
    (IDrawRectangleOptions.mk None None None None None colorRgb borderColorRgb)
  = [ q_operator; rg_of 0 0 0; RG_of 0 0 0; w_of 15; re_of 0 0 150 100;
      h_operator; Q_operator ].
Proof.
  intros Hc Hb. unfold drawRectangle; simpl.
  rewrite !(get_absent_or_empty _ _ _ Hc), !(get_absent_or_empty _ _ _ Hb).
  by rewrite (isEmpty_absent_or_empty _ Hc), (isEmpty_absent_or_empty _ Hb).
Qed.

Lemma drawRectangle_no_options_witness :
  drawRectangle IDrawRectangleOptions.empty
  = [ q_operator; rg_of 0 0 0; RG_of 0 0 0; w_of 15; re_of 0 0 150 100;
      h_operator; Q_operator ]
  /\ drawRectangle
       (IDrawRectangleOptions.mk None None None None None (Some []) (Some []))
     = [ q_operator; rg_of 0 0 0; RG_of 0 0 0; w_of 15; re_of 0 0 150 100;
         h_operator; Q_operator ].
Proof.
  split.
  - apply (drawRectangle_no_options None None); left; reflexivity.
  - apply (drawRectangle_no_options (Some []) (Some [])); right; reflexivity.
Defined.

(** C5, as the code has it: [drawRectangle] always emits exactly one
    fill-color operator, in the second position, and exactly one
    stroke-color operator, in the third, whether or not the colors are
    supplied. For a color that is not supplied the operator carries black,
    and no operator that paints with this color is emitted: no f or B
    without [colorRgb], no S or B without [borderColorRgb]. *)
Theorem drawRectangle_color_operators (options : IDrawRectangleOptions.t) :
  (exists r g b,
     List.filter is_fill_color (drawRectangle options) = [rg_of r g b]
     /\ drawRectangle options !! 1 = Some (rg_of r g b)) /\
  (exists r g b,
     List.filter is_stroke_color (drawRectangle options) = [RG_of r g b]
     /\ drawRectangle options !! 2 = Some (RG_of r g b)) /\
  (IDrawRectangleOptions.colorRgb options = None ->
     drawRectangle options !! 1 = Some (rg_of 0 0 0) /\
     Forall (fun op => op <> f_operator /\ op <> B_operator)
       (drawRectangle options)) /\
  (IDrawRectangleOptions.borderColorRgb options = None ->
     drawRectangle options !! 2 = Some (RG_of 0 0 0) /\
     Forall (fun op => op <> S_operator /\ op <> B_operator)
       (drawRectangle options)).
Proof.
  destruct options as [x y w h bw c b]; unfold drawRectangle; simpl.
  split; [| split; [| split]].
  - do 3 eexists. split; [| reflexivity]. by destruct (isEmpty c), (isEmpty b).
  - do 3 eexists. split; [| reflexivity]. by destruct (isEmpty c), (isEmpty b).
  - intros ->; split; [done |]. destruct (isEmpty b); by repeat constructor.
  - intros ->; split; [done |]. destruct (isEmpty c); by repeat constructor.
Qed.

Lemma drawRectangle_color_operators_witness :
  (drawRectangle IDrawRectangleOptions.empty !! 1 = Some (rg_of 0 0 0) /\
   Forall (fun op => op <> f_operator /\ op <> B_operator)
     (drawRectangle IDrawRectangleOptions.empty)) /\
  (drawRectangle IDrawRectangleOptions.empty !! 2 = Some (RG_of 0 0 0) /\
   Forall (fun op => op <> S_operator /\ op <> B_operator)
     (drawRectangle IDrawRectangleOptions.empty)).
Proof.
  split;
    apply (drawRectangle_color_operators IDrawRectangleOptions.empty);
    reflexivity.
Defined.

(** C5 as stated fails: on [{}] no color is supplied, and it is not so that
    the sequence holds no fill-color operator, nor that it holds no
    stroke-color operator. *)
Lemma drawRectangle_emits_black_for_absent_colors :
  IDrawRectangleOptions.colorRgb IDrawRectangleOptions.empty = None
  /\ ~ Forall (fun op => is_fill_color op = false)
         (drawRectangle IDrawRectangleOptions.empty)
  /\ IDrawRectangleOptions.borderColorRgb IDrawRectangleOptions.empty = None
  /\ ~ Forall (fun op => is_stroke_color op = false)
         (drawRectangle IDrawRectangleOptions.empty).
Proof.
  split; [reflexivity | split; [| split; [reflexivity |]]].
  - intros Hall. apply Forall_lookup_1 with (i := 1) (x := rg_of 0 0 0) in Hall;
      [discriminate Hall | reflexivity].
  - intros Hall. apply Forall_lookup_1 with (i := 2) (x := RG_of 0 0 0) in Hall;
      [discriminate Hall | reflexivity].
Qed.

(** C8: a [width], [height] or [borderWidth] of 0 is treated as an absent
    one: the rectangle gets width 150 or height 100, the line width is 15. *)
Theorem drawRectangle_zero_is_absent (x y width height borderWidth : option number)
    (colorRgb borderColorRgb : option (list number)) :
  let mk := IDrawRectangleOptions.mk in
  (drawRectangle (mk x y (Some 0%float) height borderWidth colorRgb borderColorRgb)
     = drawRectangle (mk x y None height borderWidth colorRgb borderColorRgb) /\
   drawRectangle (mk x y (Some 0%float) height borderWidth colorRgb borderColorRgb) !! 4
     = Some (re_of (or_number x 0) (or_number y 0) 150 (or_number height 100))) /\
  (drawRectangle (mk x y width (Some 0%float) borderWidth colorRgb borderColorRgb)
     = drawRectangle (mk x y width None borderWidth colorRgb borderColorRgb) /\
   drawRectangle (mk x y width (Some 0%float) borderWidth colorRgb borderColorRgb) !! 4
     = Some (re_of (or_number x 0) (or_number y 0) (or_number width 150) 100)) /\
  (drawRectangle (mk x y width height (Some 0%float) colorRgb borderColorRgb)
     = drawRectangle (mk x y width height None colorRgb borderColorRgb) /\
   drawRectangle (mk x y width height (Some 0%float) colorRgb borderColorRgb) !! 3
     = Some (w_of 15)).
Proof. repeat split. Qed.

(** C9: [drawRectangle] returns 7 operators, the first of which is q and
    the last of which is Q. *)
Theorem drawRectangle_shape (options : IDrawRectangleOptions.t) :
  length (drawRectangle options) = 7 /\
  head (drawRectangle options) = Some q_operator /\
  last (drawRectangle options) = Some Q_operator.
Proof. repeat split. Qed.

(** C10: [drawSquare options] is [drawRectangle] on the same [x], [y],
    [borderWidth], [colorRgb] and [borderColorRgb], with [size], 100 when it
    is absent or falsy, as both width and height; and [square x y s] is
    [rectangle x y s s]. *)
Theorem drawSquare_is_drawRectangle (options : IDrawSquareOptions.t) :
  let x := IDrawSquareOptions.x options in
  let y := IDrawSquareOptions.y options in
  let size := or_number (IDrawSquareOptions.size options) 100 in
  let borderWidth := IDrawSquareOptions.borderWidth options in
  let colorRgb := IDrawSquareOptions.colorRgb options in
  let borderColorRgb := IDrawSquareOptions.borderColorRgb options in
  (drawSquare options
     = drawRectangle
         (IDrawRectangleOptions.mk x y (Some size) (Some size) borderWidth
            colorRgb borderColorRgb)) /\
  (drawSquare options !! 3 = Some (lineWidth (or_number borderWidth 15))) /\
  (drawSquare options !! 4
     = Some (square (or_number x 0) (or_number y 0) size)) /\
  (forall xPos yPos s : number, square xPos yPos s = rectangle xPos yPos s s).
Proof.
  unfold drawSquare, drawRectangle, square.
  cbn [IDrawRectangleOptions.x IDrawRectangleOptions.y
       IDrawRectangleOptions.width IDrawRectangleOptions.height
       IDrawRectangleOptions.borderWidth IDrawRectangleOptions.colorRgb
       IDrawRectangleOptions.borderColorRgb].
  rewrite !get_or_array, !isEmpty_or_array, !or_number_idempotent.
  rewrite !(or_number_truthy_default _ 100 150) by reflexivity.
  repeat split.
Qed.

End DrawingHelpers.

(** ** Typed arrays *)

Section Buffers.

Lemma length_set a i b : Uint8Array.length (Uint8Array.set a i b) = Uint8Array.length a.
Proof.
  unfold Uint8Array.set. destruct (decide _); [| done].
  unfold Uint8Array.length; simpl. by rewrite length_insert.
Qed.

Lemma length_write_from codes : forall i a,
  Uint8Array.length (Utils.write_from i codes a) = Uint8Array.length a.
Proof.
  induction codes as [| c codes IH]; intros i a; simpl; [done |].
  by rewrite IH, length_set.
Qed.

Lemma length_subarray a n :
  Uint8Array.length (Uint8Array.subarray a n) = Uint8Array.length a - n.
Proof. unfold Uint8Array.subarray, Uint8Array.length; simpl. lia. Qed.

Lemma length_addStringToBuffer str a :
  Uint8Array.length (Utils.addStringToBuffer str a)
  = Uint8Array.length a - String.length str.
Proof.
  unfold Utils.addStringToBuffer. by rewrite length_subarray, length_write_from.
Qed.

End Buffers.

(** ** Bytes stored in a typed array *)

Section BytesFacts.
Import Bytes.

Lemma set_insert a i b :
  Uint8Array.set a i b
  = Uint8Array.mk (<[Uint8Array.byteOffset a + i := b]> (Uint8Array.buffer a))
      (Uint8Array.byteOffset a).
Proof.
  unfold Uint8Array.set. destruct (decide _) as [Hlt | Hge]; [done |].
  unfold Uint8Array.length in Hge. destruct a as [buf off]; simpl in *.
  by rewrite list_insert_ge by lia.
Qed.

Lemma write_from_inserts codes : forall i a,
  Utils.write_from i codes a
  = Uint8Array.mk
      (list_inserts (Uint8Array.byteOffset a + i) codes (Uint8Array.buffer a))
      (Uint8Array.byteOffset a).
Proof.
  induction codes as [| c codes IH]; intros i a; simpl; [by destruct a |].
  rewrite IH, set_insert; simpl.
  rewrite list_insert_inserts_lt by lia. do 3 f_equal. lia.
Qed.

Lemma write_bytes_inserts bs a :
  write_bytes bs a
  = Uint8Array.mk
      (list_inserts (Uint8Array.byteOffset a) bs (Uint8Array.buffer a))
      (Uint8Array.byteOffset a + length bs `min` Uint8Array.length a).
Proof.
  unfold write_bytes, Uint8Array.subarray. rewrite write_from_inserts; simpl.
  unfold Uint8Array.length; simpl. rewrite length_inserts, Nat.add_0_r. done.
Qed.

Lemma list_inserts_past_the_end {A} (k l : list A) : forall i,
  length l <= i -> list_inserts i k l = l.
Proof.
  induction k as [| x k IH]; intros i Hi; simpl; [done |].
  rewrite IH by lia. by rewrite list_insert_ge.
Qed.

Lemma write_bytes_nil a : write_bytes [] a = a.
Proof. rewrite write_bytes_inserts; destruct a; simpl. f_equal. lia. Qed.

Lemma write_bytes_app bs1 bs2 a :
  write_bytes (bs1 ++ bs2) a = write_bytes bs2 (write_bytes bs1 a).
Proof.
  rewrite !write_bytes_inserts. destruct a as [buf off]; simpl.
  unfold Uint8Array.length; simpl. rewrite length_inserts, length_app.
  f_equal; [| lia]. rewrite list_inserts_app_l.
  destruct (decide (length bs1 <= length buf - off)) as [Hroom | Hfull].
  - f_equal. lia.
  - rewrite !(list_inserts_past_the_end bs2); [done | |];
      rewrite length_inserts; lia.
Qed.

Lemma length_list_byte_of_string str :
  length (list_byte_of_string str) = String.length str.
Proof. induction str as [| c str IH]; [done |]. cbn. by rewrite <- IH. Qed.

Lemma addStringToBuffer_write_bytes str a :
  Utils.addStringToBuffer str a = write_bytes (list_byte_of_string str) a.
Proof.
  unfold Utils.addStringToBuffer, write_bytes.
  by rewrite length_list_byte_of_string.
Qed.

Lemma list_inserts_middle {A} (l1 k l2 l3 : list A) :
  length k = length l2 ->
  list_inserts (length l1) k (l1 ++ l2 ++ l3) = l1 ++ k ++ l3.
Proof.
  intros Hk. rewrite <- (Nat.add_0_r (length l1)).
  by rewrite list_inserts_app_r, list_inserts_0_r.
Qed.

Lemma split_at {A} (l : list A) off n :
  off + n <= length l ->
  exists l1 l2 l3, l = l1 ++ l2 ++ l3 /\ length l1 = off /\ length l2 = n.
Proof.
  intros Hlen. exists (take off l), (take n (drop off l)), (drop n (drop off l)).
  rewrite !take_drop, length_take, length_take, length_drop.
  split; [done | lia].
Qed.

Lemma written_write_bytes bs a :
  well_formed a -> length bs <= Uint8Array.length a ->
  Uint8Array.written a (write_bytes bs a) = bs.
Proof.
  unfold well_formed, Uint8Array.written, Uint8Array.length.
  rewrite write_bytes_inserts. destruct a as [buf off]; simpl.
  unfold Uint8Array.length; simpl. intros Hwf Hroom.
  replace (off + length bs `min` (length buf - off) - off) with (length bs) by lia.
  destruct (split_at buf off (length bs)) as (l1 & l2 & l3 & -> & <- & Hl2);
    [lia |].
  rewrite list_inserts_middle by done.
  by rewrite drop_app_length, take_app_length.
Qed.

Lemma buffer_write_bytes bs a :
  well_formed a -> length bs <= Uint8Array.length a ->
  Uint8Array.buffer (write_bytes bs a)
  = take (Uint8Array.byteOffset a) (Uint8Array.buffer a)
      ++ bs
      ++ drop (Uint8Array.byteOffset a + length bs) (Uint8Array.buffer a).
Proof.
  unfold well_formed, Uint8Array.length.
  rewrite write_bytes_inserts. destruct a as [buf off]; simpl. intros Hwf Hroom.
  destruct (split_at buf off (length bs)) as (l1 & l2 & l3 & -> & <- & Hl2);
    [lia |].
  rewrite list_inserts_middle by done.
  rewrite take_app_length, drop_app_add, <- Hl2.
  by rewrite drop_app_length.
Qed.

End BytesFacts.


(** ** Content streams *)

Section ContentStreams.
Import PDFContentStream Stores Bytes.
Context {PDFOperator : Type}.
Context `{!PDFObject.methods PDFOperator}.
Context `{!PDFObject.methods PDFDictionary.t}.

Local Abbreviation value := (JSValue PDFOperator).
Local Abbreviation stream := (PDFContentStream.t PDFOperator).

Lemma filter_Boolean_slots (ops : list value) :
  Forall slot ops ->
  List.filter Boolean ops = VOperator <$> present_operators ops.
Proof.
  induction 1 as [| v ops [-> | [o ->]] _ IH]; simpl; [done | done |].
  unfold present_operators in *; simpl. by rewrite IH.
Qed.

Lemma mapM_op_bytesSize (os : list PDFOperator) :
  mapM op_bytesSize (VOperator <$> os : list value)
  = Ok (PDFObject.bytesSize <$> os).
Proof.
  induction os as [| o os IH]; [done |]. cbn. by rewrite IH.
Qed.

Lemma foldl_add (l : list nat) : forall acc, foldl Nat.add acc l = acc + sum_list l.
Proof.
  induction l as [| n l IH]; intros acc; simpl; [lia |]. rewrite IH; lia.
Qed.

Lemma operatorsBytesSize_slots (this : stream) :
  Forall slot (operators this) ->
  operatorsBytesSize this = Ok (operators_size (operators this)).
Proof.
  intros Hs. unfold operatorsBytesSize, operators_size.
  rewrite (filter_Boolean_slots _ Hs), mapM_op_bytesSize; simpl.
  by rewrite foldl_add.
Qed.

Lemma bind_Ok {A B} (a : A) (f : A -> result B) : Ok a ≫= f = f a.
Proof. reflexivity. Qed.

Lemma bind_Ok_inv {A B} (m : result A) (f : A -> result B) (b : B) :
  m ≫= f = Ok b -> exists a, m = Ok a /\ f a = Ok b.
Proof. destruct m as [a | e]; [by exists a | done]. Qed.

(** *** The constructor's validation *)

Lemma isInstance_PDFOperator_spec (v : value) :
  isInstance_PDFOperator v = true <-> exists o, v = VOperator o.
Proof.
  split; [| by intros [o ->]]. destruct v; try done. eauto.
Qed.

Lemma forallb_isInstance (elements : list value) :
  forallb isInstance_PDFOperator elements = true <->
  exists os : list PDFOperator, elements = VOperator <$> os.
Proof.
  split.
  - induction elements as [| v elements IH]; simpl; [by exists [] |].
    intros [[o ->]%isInstance_PDFOperator_spec [os ->]%IH]%andb_prop.
    by exists (o :: os).
  - intros [os ->]. induction os; simpl; auto.
Qed.

Lemma valid_argument_spec (v : value) :
  or isInstance_PDFOperator isArrayOf_PDFOperator v = true <-> valid_argument v.
Proof.
  unfold or, valid_argument. rewrite orb_true_iff. split.
  - intros [[o ->]%isInstance_PDFOperator_spec | Ha]; [by exists (single o) |].
    destruct v; try done. apply forallb_isInstance in Ha as [os ->].
    by exists (group os).
  - intros [[o | os] ->]; simpl; [by left | right].
    apply forallb_isInstance. by exists os.
Qed.

Lemma validateArr_valid (args : list value) msg :
  Forall valid_argument args ->
  validateArr args (or isInstance_PDFOperator isArrayOf_PDFOperator) msg = Ok tt.
Proof.
  intros Hv. unfold validateArr.
  rewrite (proj2 (forallb_forall _ _)); [done |].
  intros v Hin. apply valid_argument_spec.
  by eapply (proj1 (Forall_forall _ _) Hv), list_elem_of_In.
Qed.

Lemma validateArr_invalid (args : list value) msg :
  Exists (fun v => ~ valid_argument v) args ->
  validateArr args (or isInstance_PDFOperator isArrayOf_PDFOperator) msg
  = Err (TypeValidation msg).
Proof.
  intros (v & Hin & Hv)%Exists_exists. unfold validateArr.
  destruct (forallb _ args) eqn:Hall; [| done].
  exfalso. apply Hv, valid_argument_spec.
  by apply (proj1 (forallb_forall _ _) Hall), list_elem_of_In.
Qed.

Lemma flatten_to_value (args : list (Argument PDFOperator)) :
  flatten (to_value <$> args) = (VOperator <$> (args ≫= members) : list value).
Proof.
  unfold flatten. induction args as [| [o | os] args IH]; [done | |].
  - cbn. by rewrite <- IH.
  - cbn. by rewrite fmap_app, <- IH.
Qed.

Lemma Forall_slot_operators (os : list PDFOperator) :
  Forall slot (VOperator <$> os : list value).
Proof. apply Forall_fmap, Forall_true. intros o. right. by exists o. Qed.

Lemma present_operators_fmap (os : list PDFOperator) :
  present_operators (VOperator <$> os : list value) = os.
Proof.
  unfold present_operators. induction os as [| o os IH]; [done |].
  cbn. by rewrite IH.
Qed.

Lemma constructor_valid dict (args : list (Argument PDFOperator)) :
  constructor dict (to_value <$> args)
  = Ok (PDFContentStream.mk
          (PDFDictionary.set "Length"
             (PDFDictionary.direct
                (PDFDictionary.PDFNumber
                   (sum_list (PDFObject.bytesSize <$> (args ≫= members)))))
             dict)
          (VOperator <$> (args ≫= members))).
Proof.
  unfold constructor.
  rewrite validateArr_valid by (apply Forall_fmap, Forall_true; intros a; by exists a).
  rewrite bind_Ok; cbv zeta.
  rewrite operatorsBytesSize_slots, bind_Ok; cbn [operators];
    rewrite flatten_to_value.
  - unfold operators_size. by rewrite present_operators_fmap.
  - apply Forall_slot_operators.
Qed.

(** *** The invariant of a content stream *)

Lemma validateArr_Ok_typed (args : list value) msg :
  validateArr args (or isInstance_PDFOperator isArrayOf_PDFOperator) msg = Ok tt ->
  exists typed : list (Argument PDFOperator), args = to_value <$> typed.
Proof.
  unfold validateArr. destruct (forallb _ args) eqn:Hall; [intros _ | done].
  induction args as [| v args IH]; [by exists [] |].
  apply andb_prop in Hall as [[a ->]%valid_argument_spec [typed ->]%IH].
  by exists (a :: typed).
Qed.

Lemma operators_size_fmap (os : list PDFOperator) :
  operators_size (VOperator <$> os : list value)
  = sum_list (PDFObject.bytesSize <$> os).
Proof. unfold operators_size. by rewrite present_operators_fmap. Qed.

Lemma constructor_valid_synced dict (args : list (Argument PDFOperator)) :
  constructor dict (to_value <$> args)
  = Ok (synced dict (VOperator <$> (args ≫= members))).
Proof. rewrite constructor_valid. unfold synced. by rewrite operators_size_fmap. Qed.

Lemma constructor_synced dict args (this : stream) :
  constructor dict args = Ok this -> this = synced dict (operators this).
Proof.
  intros Hc. assert (exists typed : list (Argument PDFOperator),
                       args = to_value <$> typed) as [typed ->].
  { unfold constructor in Hc. apply bind_Ok_inv in Hc as ([] & Hv & _).
    by eapply validateArr_Ok_typed. }
  rewrite constructor_valid_synced in Hc. by injection Hc as <-.
Qed.

Lemma invariant_with_Length dict n (ops : list value) :
  Forall slot ops -> invariant (with_Length dict n ops).
Proof.
  intros Hs. split; [done |]. exists n.
  unfold with_Length, PDFDictionary.get; simpl. by rewrite lookup_insert_eq.
Qed.

Lemma constructor_invariant dict args (this : stream) :
  constructor dict args = Ok this -> invariant this.
Proof.
  intros Hc. pose proof Hc as ->%constructor_synced.
  apply invariant_with_Length.
  assert (exists typed : list (Argument PDFOperator),
            args = to_value <$> typed) as [typed ->].
  { unfold constructor in Hc. apply bind_Ok_inv in Hc as ([] & Hv & _).
    by eapply validateArr_Ok_typed. }
  rewrite constructor_valid_synced in Hc. injection Hc as <-.
  apply Forall_slot_operators.
Qed.

Lemma set_Length_twice v w dict :
  PDFDictionary.set "Length" v (PDFDictionary.set "Length" w dict)
  = PDFDictionary.set "Length" v dict.
Proof. unfold PDFDictionary.set; simpl. by rewrite insert_insert_eq. Qed.

Lemma with_Length_again dict n n' (ops ops' : list value) :
  with_Length (dictionary (with_Length dict n ops)) n' ops'
  = with_Length dict n' ops'.
Proof. unfold with_Length; simpl. by rewrite set_Length_twice. Qed.

(** The callback, on a stream that keeps the invariant: [Length] becomes
    the size of the operators that are in the array when it runs. *)
Lemma on_set_synced (this : stream) property :
  invariant this ->
  on_set this property = Ok (synced (dictionary this) (operators this)).
Proof.
  intros [Hs [n HL]]. unfold on_set.
  replace (isNumber (VNumber (Number property))) with true by reflexivity.
  unfold Length, assign_Length_number. rewrite HL; cbn [PDFDictionary.lookup].
  by rewrite bind_Ok, operatorsBytesSize_slots, bind_Ok.
Qed.

Lemma Forall_slot_array_set (ops : list value) i o :
  Forall slot ops -> Forall slot (array_set ops i (VOperator o)).
Proof.
  intros Hs. assert (slot (VOperator o : value)) by (right; by exists o).
  unfold array_set. destruct (decide _).
  - by apply Forall_insert.
  - apply Forall_app; split; [| by constructor].
    apply Forall_resize; [by left | done].
Qed.

Lemma Forall_slot_resize (ops : list value) len :
  Forall slot ops -> Forall slot (resize len VUndefined ops).
Proof. intros Hs. apply Forall_resize; [by left | done]. Qed.

(** A store through the proxy: the callback sees the array as it is before
    the store. *)
Lemma proxy_set_index (this : stream) i o :
  invariant this ->
  proxy_set this (store_index i o)
  = Ok (with_Length (dictionary this) (operators_size (operators this))
          (array_set (operators this) i (VOperator o))).
Proof. intros Hinv. cbn [proxy_set]. by rewrite on_set_synced. Qed.

Lemma proxy_set_length (this : stream) len :
  invariant this ->
  proxy_set this (store_length len)
  = Ok (with_Length (dictionary this) (operators_size (operators this))
          (resize len VUndefined (operators this))).
Proof. intros Hinv. cbn [proxy_set]. by rewrite on_set_synced. Qed.

Lemma array_set_at_length (ops : list value) v :
  array_set ops (length ops) v = ops ++ [v].
Proof.
  unfold array_set. destruct (decide _); [lia |]. by rewrite resize_all.
Qed.

(** A push: the store of the length runs the callback once more, with the
    new element in place. *)
Lemma push_synced (this : stream) o :
  invariant this ->
  push this o = Ok (synced (dictionary this) (operators this ++ [VOperator o])).
Proof.
  intros Hinv. unfold push.
  rewrite proxy_set_index, bind_Ok, array_set_at_length by done.
  rewrite proxy_set_length.
  - rewrite with_Length_again. cbn [with_Length operators].
    by rewrite resize_all_alt by (rewrite length_app; simpl; lia).
  - apply invariant_with_Length, Forall_app. split; [apply Hinv |].
    constructor; [right; by exists o | constructor].
Qed.

Lemma mutate_with_Length (this this' : stream) m :
  invariant this -> mutate this m = Ok this' ->
  exists n ops, this' = with_Length (dictionary this) n ops /\ Forall slot ops.
Proof.
  intros Hinv Hm. destruct m as [i o | o | len]; cbn [mutate] in Hm.
  - rewrite proxy_set_index in Hm by done. injection Hm as <-.
    do 2 eexists. split; [done |]. apply Forall_slot_array_set, Hinv.
  - rewrite push_synced in Hm by done. injection Hm as <-.
    do 2 eexists. split; [done |]. apply Forall_app. split; [apply Hinv |].
    constructor; [right; by exists o | constructor].
  - rewrite proxy_set_length in Hm by done. injection Hm as <-.
    do 2 eexists. split; [done |]. apply Forall_slot_resize, Hinv.
Qed.

Lemma mutate_invariant (this this' : stream) (m : Mutation PDFOperator) :
  invariant this -> mutate this m = Ok this' -> invariant this'.
Proof.
  intros Hinv Hm.
  destruct (mutate_with_Length _ _ _ Hinv Hm) as (n & ops & -> & Hs).
  by apply invariant_with_Length.
Qed.

(** Stores of operators and of lengths never fail on a stream that keeps
    the invariant. *)
Lemma mutate_returns (this : stream) (m : Mutation PDFOperator) :
  invariant this -> exists this', mutate this m = Ok this'.
Proof.
  intros Hinv. destruct m as [i o | o | len]; cbn [mutate].
  - rewrite proxy_set_index by done. eauto.
  - rewrite push_synced by done. eauto.
  - rewrite proxy_set_length by done. eauto.
Qed.

Lemma reduceM_mutate_invariant (ms : list (Mutation PDFOperator)) :
  forall this this' : stream,
    invariant this -> reduceM mutate ms this = Ok this' -> invariant this'.
Proof.
  induction ms as [| m ms IH]; intros this this' Hinv Hr; simpl in Hr.
  - by injection Hr as <-.
  - apply bind_Ok_inv in Hr as (this1 & H1 & H2).
    eapply IH; [| exact H2]. by eapply mutate_invariant.
Qed.

Lemma build_invariant dict args ms (this : stream) :
  build dict args ms = Ok this -> invariant this.
Proof.
  unfold build. intros (this0 & H0' & Hr)%bind_Ok_inv.
  eapply reduceM_mutate_invariant; [| exact Hr].
  by eapply constructor_invariant.
Qed.

Lemma build_returns dict (args : list (Argument PDFOperator)) ms :
  exists this : stream, build dict (to_value <$> args) ms = Ok this.
Proof.
  unfold build. rewrite constructor_valid_synced, bind_Ok.
  match goal with |- context [reduceM mutate ms ?s] =>
    assert (invariant s) as Hinv
      by (apply invariant_with_Length, Forall_slot_operators);
    generalize dependent s
  end.
  induction ms as [| m ms IH]; intros this Hinv; cbn; [eauto |].
  destruct (mutate_returns this m Hinv) as [this1 H1].
  rewrite H1, bind_Ok. apply IH. by eapply mutate_invariant.
Qed.

Lemma build_with_Length dict args ms (this : stream) :
  build dict args ms = Ok this ->
  exists n, this = with_Length dict n (operators this).
Proof.
  unfold build. intros (this0 & Hc & Hr)%bind_Ok_inv.
  pose proof (constructor_invariant _ _ _ Hc) as Hinv.
  apply constructor_synced in Hc.
  assert (exists n, this0 = with_Length dict n (operators this0)) as Hshape
    by (eexists; exact Hc).
  clear Hc. revert this0 Hinv Hshape Hr.
  induction ms as [| m ms IH]; intros this0 Hinv [n0 Hshape] Hr; simpl in Hr.
  - injection Hr as <-. eauto.
  - apply bind_Ok_inv in Hr as (this1 & H1 & H2).
    apply (IH this1); [by eapply mutate_invariant | | done].
    destruct (mutate_with_Length _ _ _ Hinv H1) as (n & ops & -> & _).
    rewrite Hshape, with_Length_again. eauto.
Qed.

(** *** Writing the operators *)

Lemma reduceM_op_copyBytesInto (os : list PDFOperator) :
  forall remaining : Uint8Array.t,
    reduceM op_copyBytesInto (VOperator <$> os : list value) remaining
    = Ok (foldl (fun remBytes o => PDFObject.copyBytesInto o remBytes)
            remaining os).
Proof. induction os as [| o os IH]; intros remaining; cbn; [done | apply IH]. Qed.

Lemma bytesSize_slots (this : stream) :
  Forall slot (operators this) ->
  bytesSize this
  = Ok (PDFObject.bytesSize (dictionary this)
        + 8 + operators_size (operators this) + 10).
Proof.
  intros Hs. unfold bytesSize.
  rewrite (operatorsBytesSize_slots _ Hs), bind_Ok. f_equal. lia.
Qed.

(** C6: the constructor fails with a type-validation error when one of its
    arguments is neither a [PDFOperator] nor an array of [PDFOperator]s; on
    arguments that are, it returns a stream whose operators are the
    arguments flattened by one level, in order. *)
Theorem constructor_validates_and_flattens (dict : PDFDictionary.t) :
  (forall args : list value,
     Exists (fun v => ~ valid_argument v) args ->
     exists msg, constructor dict args = Err (TypeValidation msg)) /\
  (forall args : list (Argument PDFOperator),
     exists this : stream,
       constructor dict (to_value <$> args) = Ok this /\
       operators this = VOperator <$> (args ≫= members)).
Proof.
  split.
  - intros args Hbad. eexists. unfold constructor.
    by rewrite (validateArr_invalid _ _ Hbad).
  - intros args. eexists. by rewrite constructor_valid.
Qed.

(** C7: [bytesSize()] is the size of the dictionary, 8 bytes for the line
    feed and [stream] with its line feed, the sizes of the operators, and
    10 bytes for the line feed and [endstream]. *)
Theorem bytesSize_parts dict args ms (this : stream) :
  build dict args ms = Ok this ->
  bytesSize this
  = Ok (PDFObject.bytesSize (dictionary this)
        + 8 + operators_size (operators this) + 10).
Proof.
  intros [Hs _]%build_invariant. by apply bytesSize_slots.
Qed.

Lemma copyBytesInto_slots (this : stream) :
  Forall slot (operators this) ->
  validateDictionary this = Ok tt ->
  forall buffer : Uint8Array.t,
    copyBytesInto this buffer
    = Ok (Utils.addStringToBuffer (Utils.LF +:+ "endstream")
            (foldl (fun remBytes o => PDFObject.copyBytesInto o remBytes)
               (Utils.addStringToBuffer (Utils.LF +:+ "stream" +:+ Utils.LF)
                  (PDFObject.copyBytesInto (dictionary this) buffer))
               (present_operators (operators this)))).
Proof.
  intros Hs Hv buffer. unfold copyBytesInto.
  by rewrite Hv, bind_Ok, (filter_Boolean_slots _ Hs), reduceM_op_copyBytesInto.
Qed.

Lemma foldl_copyBytesInto_writes (enc : PDFOperator -> list byte)
    (os : list PDFOperator) :
  Forall (fun o => writes o (enc o)) os ->
  forall remaining : Uint8Array.t,
    foldl (fun remBytes o => PDFObject.copyBytesInto o remBytes) remaining os
    = write_bytes (mjoin (enc <$> os)) remaining.
Proof.
  induction 1 as [| o os Ho _ IH]; intros remaining; cbn.
  - by rewrite write_bytes_nil.
  - by rewrite IH, Ho, write_bytes_app.
Qed.

Lemma sum_list_sizes_encoded (enc : PDFOperator -> list byte)
    (os : list PDFOperator) :
  Forall (fun o => PDFObject.bytesSize o = length (enc o)) os ->
  sum_list (PDFObject.bytesSize <$> os) = length (mjoin (enc <$> os)).
Proof.
  induction 1 as [| o os Ho _ IH]; cbn; [done |].
  rewrite length_app, <- Ho. f_equal. exact IH.
Qed.

(** The bytes of a stream whose dictionary writes [dict_bytes] and whose
    operators write [enc]. *)
Definition stream_bytes (dict_bytes : list byte) (enc : PDFOperator -> list byte)
    (this : stream) : list byte :=
  dict_bytes
    ++ list_byte_of_string (Utils.LF +:+ "stream" +:+ Utils.LF)
    ++ mjoin (enc <$> present_operators (operators this))
    ++ list_byte_of_string (Utils.LF +:+ "endstream").

(** On every buffer, [copyBytesInto] is one store of [stream_bytes] at the
    start of the view. *)
Lemma copyBytesInto_write_bytes (this : stream) dict_bytes enc :
  invariant this ->
  writes (dictionary this) dict_bytes ->
  Forall (fun o => writes o (enc o)) (present_operators (operators this)) ->
  forall buffer : Uint8Array.t,
    copyBytesInto this buffer
    = Ok (write_bytes (stream_bytes dict_bytes enc this) buffer).
Proof.
  intros [Hs [n HL]] Hdict Hw buffer.
  rewrite copyBytesInto_slots; [| done | unfold validateDictionary; by rewrite HL].
  rewrite (foldl_copyBytesInto_writes enc) by done.
  rewrite !addStringToBuffer_write_bytes, Hdict.
  unfold stream_bytes. by rewrite !write_bytes_app.
Qed.

(** C1: when the dictionary and the operators of a stream each write as
    many bytes as their [bytesSize] reports ([dict_bytes], and [enc o] for
    the operator [o]), [copyBytesInto] on a buffer with room stores the
    bytes of the dictionary, of the two keywords and of the operators one
    after the other from the start of the buffer, changes no other byte,
    and returns the view behind them: the bytes it has written are as many
    as the stream's [bytesSize] reports. *)
Theorem copyBytesInto_writes_bytesSize dict args ms (this : stream)
    (dict_bytes : list byte) (enc : PDFOperator -> list byte) :
  build dict args ms = Ok this ->
  writes_its_size (dictionary this) dict_bytes ->
  (forall o, o ∈ present_operators (operators this) -> writes_its_size o (enc o)) ->
  exists n,
    bytesSize this = Ok n /\
    length (stream_bytes dict_bytes enc this) = n /\
    forall buffer : Uint8Array.t,
      n <= Uint8Array.length buffer ->
      exists remaining,
        copyBytesInto this buffer = Ok remaining /\
        Uint8Array.length buffer - Uint8Array.length remaining = n /\
        Uint8Array.written buffer remaining = stream_bytes dict_bytes enc this /\
        Uint8Array.buffer remaining
        = take (Uint8Array.byteOffset buffer) (Uint8Array.buffer buffer)
            ++ stream_bytes dict_bytes enc this
            ++ drop (Uint8Array.byteOffset buffer + n) (Uint8Array.buffer buffer).
Proof.
  intros Hb [Hdict Hdsize] Hops.
  pose proof (build_invariant _ _ _ _ Hb) as Hinv.
  assert (Forall (fun o => writes o (enc o)) (present_operators (operators this)))
    as Hw by (apply Forall_forall; intros o Ho; by apply Hops).
  assert (Forall (fun o => PDFObject.bytesSize o = length (enc o))
            (present_operators (operators this)))
    as Hsz by (apply Forall_forall; intros o Ho; by apply Hops).
  assert (length (stream_bytes dict_bytes enc this)
          = PDFObject.bytesSize (dictionary this)
            + 8 + operators_size (operators this) + 10) as Hlen.
  { unfold stream_bytes, operators_size.
    rewrite !length_app, !length_list_byte_of_string, Hdsize,
      (sum_list_sizes_encoded enc) by done.
    change (String.length (Utils.LF +:+ "stream" +:+ Utils.LF)) with 8.
    change (String.length (Utils.LF +:+ "endstream")) with 10. lia. }
  eexists. split; [apply bytesSize_slots, Hinv |]. split; [done |].
  rewrite <- Hlen. intros buffer Hroom.
  assert (well_formed buffer) as Hwf.
  { unfold well_formed. unfold Uint8Array.length in Hroom. lia. }
  eexists. split; [by apply copyBytesInto_write_bytes |].
  split; [| split].
  - rewrite write_bytes_inserts. unfold Uint8Array.length in *; simpl.
    rewrite length_inserts. unfold well_formed in Hwf. lia.
  - by apply written_write_bytes.
  - by apply buffer_write_bytes.
Qed.

End ContentStreams.

(** ** The model run on the concrete encoding *)

Section Runs.
Import PDFContentStream Stores Bytes Example.

Lemma build_drawn : build no_entries arguments mutations = Ok drawn.
Proof. vm_compute. reflexivity. Qed.

(** A store past the end leaves empty slots; the callback has run before
    the store, so [Length] is still the size of the four operators. *)
Example store_past_the_end :
  exists this,
    mutate drawn (assign 6 (raw "n")) = Ok this /\
    operators this
    = [ VOperator (raw "q"); VOperator (raw "0 0 150 100 re");
        VOperator (raw "f"); VOperator (raw "Q"); VUndefined; VUndefined;
        VOperator (raw "n") ] /\
    Length_number this = Ok (Some 17) /\
    operators_size (operators this) = 18.
Proof. eexists. repeat split; vm_compute; reflexivity. Qed.

(** A store to [length] drops operators; [Length] is what it was. *)
Example store_shorter_length :
  exists this,
    mutate drawn (set_length 1) = Ok this /\
    operators this = [VOperator (raw "q")] /\
    Length_number this = Ok (Some 17).
Proof. eexists. split; [| split]; vm_compute; reflexivity. Qed.

(** One level of flattening only: an array inside an array is refused. *)
Example constructor_nested_array :
  exists msg,
    constructor no_entries [VArray [VArray [VOperator (raw "q")]]]
    = (Err (TypeValidation msg) : result (PDFContentStream.t RawOperator)).
Proof. eexists. vm_compute. reflexivity. Qed.

(** The bytes a run of [copyBytesInto] leaves in a buffer of [bytesSize]
    bytes. *)
Example copyBytesInto_drawn :
  bytesSize drawn = Ok 51 /\
  exists remaining,
    copyBytesInto drawn (Uint8Array.new 51) = Ok remaining /\
    Uint8Array.length remaining = 0 /\
    string_of_list_byte (Uint8Array.written (Uint8Array.new 51) remaining)
    = "<< /Length 17 >>" +:+ Utils.LF +:+ "stream" +:+ Utils.LF
      +:+ "q0 0 150 100 refQ" +:+ Utils.LF +:+ "endstream".
Proof. split; [reflexivity |]. eexists. split; [| split]; reflexivity. Qed.

Lemma raw_writes (o : RawOperator) :
  writes_its_size o (list_byte_of_string (encoding o)).
Proof.
  split; [| by rewrite length_list_byte_of_string].
  intros buffer. apply addStringToBuffer_write_bytes.
Qed.

Lemma dictionary_writes (dict : PDFDictionary.t) :
  writes_its_size dict (list_byte_of_string (dictionary_text dict)).
Proof.
  split; [| by rewrite length_list_byte_of_string].
  intros buffer. apply addStringToBuffer_write_bytes.
Qed.

Lemma copyBytesInto_writes_bytesSize_witness :
  build no_entries arguments mutations = Ok drawn /\
  exists n,
    bytesSize drawn = Ok n /\
    length
      (stream_bytes (list_byte_of_string (dictionary_text (dictionary drawn)))
         (fun o => list_byte_of_string (encoding o)) drawn) = n /\
    forall buffer : Uint8Array.t,
      n <= Uint8Array.length buffer ->
      exists remaining,
        copyBytesInto drawn buffer = Ok remaining /\
        Uint8Array.length buffer - Uint8Array.length remaining = n /\
        Uint8Array.written buffer remaining
        = stream_bytes (list_byte_of_string (dictionary_text (dictionary drawn)))
            (fun o => list_byte_of_string (encoding o)) drawn /\
        Uint8Array.buffer remaining
        = take (Uint8Array.byteOffset buffer) (Uint8Array.buffer buffer)
            ++ stream_bytes
                 (list_byte_of_string (dictionary_text (dictionary drawn)))
                 (fun o => list_byte_of_string (encoding o)) drawn
            ++ drop (Uint8Array.byteOffset buffer + n) (Uint8Array.buffer buffer).
Proof.
  split; [vm_compute; reflexivity |].
  apply (copyBytesInto_writes_bytesSize no_entries arguments mutations drawn).
  - vm_compute; reflexivity.
  - apply dictionary_writes.
  - intros o _. apply raw_writes.
Defined.

(** C2 fails on the program: after [PDFContentStream.of(dict, q)] and
    [operators[0] = re], with a [q] of 1 byte and a [re] of 10 bytes, the
    sequence holds [re] alone and [Length] still reads 1: the callback has
    computed it before the store. *)
Lemma Length_is_stale_after_assignment :
  build no_entries [VOperator (raw "q")] [assign 0 (raw "0 0 1 1 re")]
    = Ok reassigned
  /\ operators reassigned = [VOperator (raw "0 0 1 1 re")]
  /\ operators_size (operators reassigned) = 10
  /\ Length_number reassigned = Ok (Some 1).
Proof. repeat split; vm_compute; reflexivity. Qed.

Lemma bytesSize_parts_witness :
  build no_entries arguments mutations = Ok drawn /\
  bytesSize drawn = Ok (16 + 8 + 17 + 10).
Proof.
  split; [vm_compute; reflexivity |].
  refine (bytesSize_parts no_entries arguments mutations drawn _).
  vm_compute; reflexivity.
Defined.

Lemma constructor_validates_and_flattens_witness :
  exists msg,
    constructor no_entries [VOperator (raw "q"); VNumber 1%float]
    = (Err (TypeValidation msg) : result (PDFContentStream.t RawOperator)).
Proof.
  apply (constructor_validates_and_flattens no_entries).
  apply Exists_cons_tl, Exists_cons_hd. intros [[o | os] Ha]; discriminate Ha.
Defined.

End Runs.

(** ** More on the drawing helpers *)

Section DrawingHelpersMore.
Import JS Operators Composite Drawing.

Lemma truthy_or_number a d : truthy d = true -> truthy (or_number a d) = true.
Proof.
  intros Hd. destruct a as [v |]; simpl; [| done].
  by destruct (truthy v) eqn:Hv.
Qed.

Lemma or_number_zero a : truthy (or_number a 0) = true \/ or_number a 0 = 0%float.
Proof.
  destruct a as [v |]; simpl; [| by right].
  destruct (truthy v) eqn:Hv; [by left | by right].
Qed.

Lemma or_number_Some_truthy v d : truthy v = true -> or_number (Some v) d = v.
Proof. intros Hv; simpl. by rewrite Hv. Qed.

Lemma or_number_Some_falsy v d : truthy v = false -> or_number (Some v) d = d.
Proof. intros Hv; simpl. by rewrite Hv. Qed.

(** X1: whatever the options, the line width and the width and height of
    the rectangle that [drawRectangle] emits are truthy numbers (not 0, not
    -0, not NaN), and its [x] and [y] are truthy or +0. *)
Theorem drawRectangle_operands (options : IDrawRectangleOptions.t) :
  exists fillColor strokeColor lw x y w h paint,
    drawRectangle options
    = [ q_operator; fillColor; strokeColor; w_of lw; re_of x y w h; paint;
        Q_operator ]
    /\ truthy lw = true /\ truthy w = true /\ truthy h = true
    /\ (truthy x = true \/ x = 0%float)
    /\ (truthy y = true \/ y = 0%float).
Proof.
  do 8 eexists. split; [reflexivity |].
  repeat split; try (by apply truthy_or_number); apply or_number_zero.
Qed.

Lemma float_150_100 : 150%float <> 100%float.
Proof.
  intros H. apply (f_equal (fun v => PrimFloat.eqb v 100)) in H.
  vm_compute in H. discriminate H.
Qed.

Lemma get_three_components c i :
  i < 3 -> get (three_components c) i 0 = get c i 0.
Proof.
  intros Hi. destruct c as [[| v1 [| v2 [| v3 l]]] |]; try reflexivity;
    destruct i as [| [| [| i]]]; try reflexivity; exfalso; lia.
Qed.

Lemma isEmpty_three_components c : isEmpty (three_components c) = isEmpty c.
Proof. by destruct c as [[| v l] |]. Qed.

(** X2: [drawRectangle] reads a non-empty color array as three components:
    components past the third are ignored and missing ones are 0. The empty
    array is not the same as [[0, 0, 0]]: both set the color to black, but
    only the second one paints with it. *)
Theorem drawRectangle_color_components
    (x y w h bw : option number) (c b : option (list number)) :
  drawRectangle (IDrawRectangleOptions.mk x y w h bw c b)
  = drawRectangle
      (IDrawRectangleOptions.mk x y w h bw (three_components c) (three_components b))
  /\ drawRectangle (IDrawRectangleOptions.mk x y w h bw (Some []) b) !! 1
     = drawRectangle
         (IDrawRectangleOptions.mk x y w h bw (Some [0; 0; 0]%float) b) !! 1
  /\ drawRectangle (IDrawRectangleOptions.mk x y w h bw (Some []) b)
     <> drawRectangle (IDrawRectangleOptions.mk x y w h bw (Some [0; 0; 0]%float) b).
Proof.
  split; [| split; [reflexivity |]].
  - unfold drawRectangle.
    cbn [IDrawRectangleOptions.colorRgb IDrawRectangleOptions.borderColorRgb].
    by rewrite !get_three_components, !isEmpty_three_components by lia.
  - intros H. apply (f_equal (fun l => l !! 5)) in H.
    unfold drawRectangle in H; simpl in H. by destruct (isEmpty b).
Qed.

(** X3: [drawRectangle] with the same truthy number [s] as width and height
    is [drawSquare] with size [s]; with a falsy [s] (0, -0, NaN) the two
    differ: the rectangle falls back to 150 by 100, the square to 100 by
    100. *)
Theorem drawRectangle_is_drawSquare_iff
    (x y bw : option number) (s : number) (c b : option (list number)) :
  drawRectangle (IDrawRectangleOptions.mk x y (Some s) (Some s) bw c b)
  = drawSquare (IDrawSquareOptions.mk x y (Some s) bw c b)
  <-> truthy s = true.
Proof.
  unfold drawSquare, drawRectangle.
  cbn [IDrawRectangleOptions.x IDrawRectangleOptions.y
       IDrawRectangleOptions.width IDrawRectangleOptions.height
       IDrawRectangleOptions.borderWidth IDrawRectangleOptions.colorRgb
       IDrawRectangleOptions.borderColorRgb
       IDrawSquareOptions.x IDrawSquareOptions.y IDrawSquareOptions.size
       IDrawSquareOptions.borderWidth IDrawSquareOptions.colorRgb
       IDrawSquareOptions.borderColorRgb].
  rewrite !get_or_array, !isEmpty_or_array, !or_number_idempotent.
  rewrite !(or_number_truthy_default _ 100 150) by reflexivity.
  destruct (truthy s) eqn:Hs.
  - by rewrite !or_number_Some_truthy.
  - rewrite !or_number_Some_falsy by done. split; [| done].
    intros H. exfalso. apply float_150_100.
    by apply (f_equal (fun l =>
      match l !! 4 with Some (re_of _ _ w _) => w | _ => 0%float end)) in H.
Qed.

Lemma depth_after_draw (c : Call) d rest :
  depth_after d (draw c ++ rest) = depth_after d rest.
Proof.
  destruct c as [o | o]; unfold draw, drawSquare, drawRectangle;
    cbn [IDrawRectangleOptions.colorRgb IDrawRectangleOptions.borderColorRgb];
    repeat match goal with |- context [isEmpty ?c] => destruct (isEmpty c) end;
    reflexivity.
Qed.

Lemma length_draws (calls : list Call) :
  length (calls ≫= draw) = 7 * length calls.
Proof.
  induction calls as [| c calls IH]; [done |].
  change ((c :: calls) ≫= draw) with (draw c ++ (calls ≫= draw)).
  rewrite length_app, IH. destruct c; simpl; lia.
Qed.

(** X4: every helper restores the graphics state it saves: a sequence of
    calls of [drawRectangle] and [drawSquare], one after the other, leaves
    the depth of the graphics-state stack where it was, and never pops a
    state it did not push. *)
Theorem draw_keeps_graphics_state (calls : list Call) d rest :
  depth_after d ((calls ≫= draw) ++ rest) = depth_after d rest
  /\ length (calls ≫= draw) = 7 * length calls.
Proof.
  split.
  - induction calls as [| c calls IH]; [done |].
    change ((c :: calls) ≫= draw) with (draw c ++ (calls ≫= draw)).
    by rewrite <- app_assoc, depth_after_draw.
  - apply length_draws.
Qed.

End DrawingHelpersMore.

(** ** More on content streams: what a store does *)

Section StoresFacts.
Import PDFContentStream Stores.
Context {PDFOperator : Type}.
Context `{!PDFObject.methods PDFOperator}.
Context `{!PDFObject.methods PDFDictionary.t}.

Local Abbreviation value := (JSValue PDFOperator).
Local Abbreviation stream := (PDFContentStream.t PDFOperator).

Lemma synced_synced dict (ops ops' : list value) :
  synced (dictionary (synced dict ops)) ops' = synced dict ops'.
Proof. apply with_Length_again. Qed.

Lemma operators_size_cons (v : value) (ops : list value) :
  operators_size (v :: ops) = slot_size v + operators_size ops.
Proof. unfold operators_size, present_operators. by destruct v. Qed.

Lemma operators_size_app (ops1 ops2 : list value) :
  operators_size (ops1 ++ ops2) = operators_size ops1 + operators_size ops2.
Proof.
  induction ops1 as [| v ops1 IH]; [done |].
  rewrite <- app_comm_cons, !operators_size_cons, IH. lia.
Qed.

Lemma operators_size_singleton (o : PDFOperator) :
  operators_size [VOperator o : value] = PDFObject.bytesSize o.
Proof. rewrite operators_size_cons. simpl. unfold operators_size; simpl. lia. Qed.

Lemma operators_size_empty_slots n :
  operators_size (replicate n VUndefined : list value) = 0.
Proof. induction n as [| n IH]; [done |]. simpl. by rewrite operators_size_cons, IH. Qed.

Lemma operators_size_insert (ops : list value) : forall i old v,
  ops !! i = Some old ->
  operators_size (<[i := v]> ops) + slot_size old
  = operators_size ops + slot_size v.
Proof.
  induction ops as [| w ops IH]; intros [| i] old v Hi; try done; simpl in *.
  - injection Hi as ->. rewrite !operators_size_cons. lia.
  - rewrite !operators_size_cons. specialize (IH _ _ v Hi). lia.
Qed.

Lemma operators_size_take (ops : list value) n :
  operators_size (take n ops) <= operators_size ops.
Proof.
  rewrite <- (take_drop n ops) at 2. rewrite operators_size_app. lia.
Qed.

Lemma Length_number_with_Length dict n (ops : list value) :
  Length_number (with_Length dict n ops) = Ok (Some n).
Proof.
  unfold Length_number, Length, with_Length, PDFDictionary.get; simpl.
  by rewrite lookup_insert_eq.
Qed.

Lemma Length_number_synced dict (ops : list value) :
  Length_number (synced dict ops) = Ok (Some (operators_size ops)).
Proof. apply Length_number_with_Length. Qed.

Lemma reduceM_app {A B} (f : B -> A -> result B) (l1 l2 : list A) (init : B) :
  reduceM f (l1 ++ l2) init = reduceM f l1 init ≫= reduceM f l2.
Proof.
  revert init. induction l1 as [| a l1 IH]; intros init; [done |].
  cbn. destruct (f init a) as [b | e]; [apply IH | done].
Qed.

Lemma build_snoc dict args ms m (this : stream) :
  build dict args ms = Ok this ->
  build dict args (ms ++ [m]) = mutate this m.
Proof.
  unfold build. intros (this0 & H0' & Hr)%bind_Ok_inv.
  rewrite H0', !bind_Ok, reduceM_app, Hr, bind_Ok. cbn.
  by destruct (mutate this m).
Qed.

(** X5: [operators.push(o)] adds [o] at the end of the sequence and leaves
    [Length] at the size of all the operators that are then in the
    sequence, whatever [Length] was before the push. *)
Theorem push_appends dict args ms (this : stream) (o : PDFOperator) :
  build dict args ms = Ok this ->
  exists this',
    build dict args (ms ++ [append o]) = Ok this'
    /\ operators this' = operators this ++ [VOperator o]
    /\ Length_number this' = Ok (Some (operators_size (operators this')))
    /\ operators_size (operators this')
       = operators_size (operators this) + PDFObject.bytesSize o.
Proof.
  intros Hb. pose proof (build_invariant _ _ _ _ Hb) as Hinv.
  eexists. rewrite (build_snoc _ _ _ _ _ Hb). cbn [mutate].
  rewrite push_synced by done. split; [reflexivity |]. split; [done |].
  split; [apply Length_number_synced |]. cbn [synced operators].
  by rewrite operators_size_app, operators_size_singleton.
Qed.

(** X6: [operators[i] = o] on a slot that exists replaces this slot and no
    other and keeps the length of the sequence. The callback runs before
    the store: [Length] is left at the size of the operators as they were
    before the assignment, which is the size of the new sequence only when
    [o] has the size of what the slot held. *)
Theorem assign_replaces dict args ms (this : stream) i (old : value) o :
  build dict args ms = Ok this ->
  operators this !! i = Some old ->
  exists this',
    build dict args (ms ++ [assign i o]) = Ok this'
    /\ operators this' = <[i := VOperator o]> (operators this)
    /\ length (operators this') = length (operators this)
    /\ Length_number this' = Ok (Some (operators_size (operators this)))
    /\ operators_size (operators this') + slot_size old
       = operators_size (operators this) + PDFObject.bytesSize o.
Proof.
  intros Hb Hi. pose proof (build_invariant _ _ _ _ Hb) as Hinv.
  eexists. rewrite (build_snoc _ _ _ _ _ Hb). cbn [mutate].
  rewrite proxy_set_index by done. unfold array_set.
  destruct (decide _) as [_ | Hge]; [| by apply lookup_lt_Some in Hi].
  split; [reflexivity |]. split; [done |]. cbn [with_Length operators].
  split; [by rewrite length_insert |].
  split; [apply Length_number_with_Length |].
  by rewrite (operators_size_insert _ _ _ (VOperator o) Hi).
Qed.

(** X7: [operators[i] = o] at or past the end of the sequence extends it to
    [i + 1] slots; the slots in between are empty and count for nothing.
    [Length] is left at the size of the operators as they were before the
    assignment, the byte size of [o] short of the size of the new
    sequence. *)
Theorem assign_past_the_end dict args ms (this : stream) i o :
  build dict args ms = Ok this ->
  length (operators this) <= i ->
  exists this',
    build dict args (ms ++ [assign i o]) = Ok this'
    /\ operators this'
       = operators this
           ++ replicate (i - length (operators this)) VUndefined
           ++ [VOperator o]
    /\ length (operators this') = S i
    /\ Length_number this' = Ok (Some (operators_size (operators this)))
    /\ operators_size (operators this')
       = operators_size (operators this) + PDFObject.bytesSize o.
Proof.
  intros Hb Hi. pose proof (build_invariant _ _ _ _ Hb) as Hinv.
  eexists. rewrite (build_snoc _ _ _ _ _ Hb). cbn [mutate].
  rewrite proxy_set_index by done. unfold array_set.
  destruct (decide _) as [Hlt | _]; [lia |]. rewrite resize_ge by done.
  split; [reflexivity |]. cbn [with_Length operators]. rewrite <- app_assoc.
  split; [done |].
  split; [rewrite !length_app, length_replicate; simpl; lia |].
  split; [apply Length_number_with_Length |].
  rewrite !operators_size_app, operators_size_empty_slots,
    operators_size_singleton. lia.
Qed.

(** X8: [operators.length = len] keeps the first [len] slots, or adds empty
    slots up to [len]. [Length] is left at the size of the operators as
    they were before the store, which is at least the size of those that
    are kept, and equal to it when nothing is cut. *)
Theorem set_length_resizes dict args ms (this : stream) len :
  build dict args ms = Ok this ->
  exists this',
    build dict args (ms ++ [set_length len]) = Ok this'
    /\ operators this' = resize len VUndefined (operators this)
    /\ Length_number this' = Ok (Some (operators_size (operators this)))
    /\ operators_size (operators this') = operators_size (take len (operators this))
    /\ operators_size (operators this') <= operators_size (operators this)
    /\ (length (operators this) <= len ->
        operators_size (operators this') = operators_size (operators this)).
Proof.
  intros Hb. pose proof (build_invariant _ _ _ _ Hb) as Hinv.
  eexists. rewrite (build_snoc _ _ _ _ _ Hb). cbn [mutate].
  rewrite proxy_set_length by done.
  split; [reflexivity |]. split; [done |].
  split; [apply Length_number_with_Length |]. cbn [with_Length operators].
  rewrite resize_spec, operators_size_app, operators_size_empty_slots,
    Nat.add_0_r.
  split; [done |]. split; [apply operators_size_take |].
  intros Hlen. by rewrite take_ge.
Qed.

(** X9: the constructor and the stores write the [Length] entry of the
    dictionary and nothing else: every other entry, and the object index,
    are as they were in the dictionary the stream was constructed with;
    whatever [Length] entry that dictionary had is replaced by a number
    object of the stream's own. *)
Theorem only_Length_is_written dict args ms (this : stream) :
  build dict args ms = Ok this ->
  (forall key, key <> "Length" ->
     PDFDictionary.get key (dictionary this) = PDFDictionary.get key dict)
  /\ PDFDictionary.index (dictionary this) = PDFDictionary.index dict
  /\ exists n,
       PDFDictionary.get "Length" (dictionary this)
       = Some (PDFDictionary.direct (PDFDictionary.PDFNumber n)).
Proof.
  intros [n ->]%build_with_Length. unfold with_Length, PDFDictionary.get; simpl.
  split; [| split; [done | exists n; by rewrite lookup_insert_eq]].
  intros key Hkey. by rewrite lookup_insert_ne.
Qed.

Lemma reduceM_appends dict (os : list PDFOperator) : forall ops0 : list value,
  Forall slot ops0 ->
  reduceM mutate (append <$> os) (synced dict ops0)
  = Ok (synced dict (ops0 ++ (VOperator <$> os))).
Proof.
  induction os as [| o os IH]; intros ops0 Hs.
  - cbn. by rewrite app_nil_r.
  - rewrite fmap_cons. cbn [reduceM mutate].
    rewrite push_synced by by apply invariant_with_Length.
    rewrite bind_Ok, synced_synced. cbn [synced operators].
    rewrite IH, <- app_assoc; [done |].
    apply Forall_app; split; [done |].
    constructor; [right; by exists o | constructor].
Qed.

Lemma bind_single_members (os : list PDFOperator) :
  (single <$> os) ≫= members = os.
Proof. induction os as [| o os IH]; [done |]. cbn. by rewrite IH. Qed.

Lemma fmap_to_value_single (os : list PDFOperator) :
  to_value <$> (single <$> os) = (VOperator <$> os : list value).
Proof. induction os as [| o os IH]; [done |]. cbn. by rewrite IH. Qed.

(** X10: pushing operators one by one gives the stream that the
    constructor gives when it is handed them as further arguments. *)
Theorem pushes_are_arguments dict (args : list (Argument PDFOperator))
    (os : list PDFOperator) :
  build dict (to_value <$> args) (append <$> os)
  = constructor dict (to_value <$> (args ++ (single <$> os))).
Proof.
  unfold build. rewrite !constructor_valid_synced, bind_Ok.
  rewrite reduceM_appends by apply Forall_slot_operators.
  by rewrite bind_app, bind_single_members, fmap_app.
Qed.

(** X11: how the operators are grouped into arguments does not matter: the
    constructor on operators and arrays of operators gives the stream it
    gives on the flat sequence of their members (empty arrays add
    nothing). *)
Theorem grouping_is_irrelevant dict (args : list (Argument PDFOperator)) :
  constructor dict (to_value <$> args)
  = constructor dict (VOperator <$> (args ≫= members)).
Proof.
  rewrite <- (fmap_to_value_single (args ≫= members)).
  by rewrite !constructor_valid_synced, bind_single_members.
Qed.

(** X12: what [validateOperators] accepts the constructor accepts too, and
    keeps as it is; an array of operators, which the constructor accepts
    as one argument, [validateOperators] refuses. *)
Theorem validateOperators_is_stricter dict (elements : list value) :
  (validateOperators elements = Ok tt ->
   constructor dict elements = Ok (synced dict elements))
  /\ (forall os : list PDFOperator,
        validateOperators [VArray (VOperator <$> os)]
        = Err (TypeValidation
                 "Only PDFOperators can be pushed to a PDFContentStream.")
        /\ constructor dict [VArray (VOperator <$> os)]
           = Ok (synced dict (VOperator <$> os))).
Proof.
  split.
  - unfold validateOperators, validateArr.
    destruct (forallb _ elements) eqn:Hall; [intros _ | done].
    apply forallb_isInstance in Hall as [os ->].
    rewrite <- (fmap_to_value_single os).
    by rewrite constructor_valid_synced, bind_single_members,
      fmap_to_value_single.
  - intros os. split; [done |].
    change [VArray (VOperator <$> os) : value] with (to_value <$> [group os]).
    rewrite constructor_valid_synced. cbn. by rewrite app_nil_r.
Qed.

Lemma on_set_reference (this : stream) property ref n :
  Forall slot (operators this) ->
  PDFDictionary.get "Length" (dictionary this)
    = Some (PDFDictionary.reference ref) ->
  PDFDictionary.index (dictionary this) !! ref = Some (PDFDictionary.PDFNumber n) ->
  on_set this property
  = Ok (with_Length_at ref (dictionary this) (operators_size (operators this))
          (operators this)).
Proof.
  intros Hs HL Hidx. unfold on_set.
  replace (isNumber (VNumber (Number property))) with true by reflexivity.
  unfold Length, assign_Length_number.
  rewrite HL; cbn [PDFDictionary.lookup]. rewrite Hidx, bind_Ok.
  by rewrite operatorsBytesSize_slots, bind_Ok.
Qed.

Lemma on_set_dangling (this : stream) property ref :
  PDFDictionary.get "Length" (dictionary this)
    = Some (PDFDictionary.reference ref) ->
  PDFDictionary.index (dictionary this) !! ref = None ->
  on_set this property = Err UnresolvedReference.
Proof.
  intros HL Hidx. unfold on_set.
  replace (isNumber (VNumber (Number property))) with true by reflexivity.
  unfold Length. rewrite HL; cbn [PDFDictionary.lookup]. by rewrite Hidx.
Qed.

Lemma with_Length_at_again ref dict n n' (ops ops' : list value) :
  with_Length_at ref (dictionary (with_Length_at ref dict n ops)) n' ops'
  = with_Length_at ref dict n' ops'.
Proof. unfold with_Length_at; simpl. by rewrite insert_insert_eq. Qed.

Lemma Length_number_with_Length_at ref dict n (ops : list value) :
  PDFDictionary.get "Length" dict = Some (PDFDictionary.reference ref) ->
  PDFDictionary.get "Length" (dictionary (with_Length_at ref dict n ops))
    = Some (PDFDictionary.reference ref)
  /\ Length_number (with_Length_at ref dict n ops) = Ok (Some n).
Proof.
  intros HL. split; [done |].
  unfold Length_number, Length, with_Length_at, PDFDictionary.get in *; simpl.
  rewrite HL; simpl. by rewrite lookup_insert_eq.
Qed.

Lemma proxy_set_reference (this : stream) (s : Store PDFOperator) ref n :
  Forall slot (operators this) ->
  PDFDictionary.get "Length" (dictionary this)
    = Some (PDFDictionary.reference ref) ->
  PDFDictionary.index (dictionary this) !! ref = Some (PDFDictionary.PDFNumber n) ->
  proxy_set this s
  = Ok (with_Length_at ref (dictionary this) (operators_size (operators this))
          (match s with
           | store_index i o => array_set (operators this) i (VOperator o)
           | store_length len => resize len VUndefined (operators this)
           end)).
Proof.
  intros Hs HL Hidx. destruct s as [i o | len]; cbn [proxy_set];
    by rewrite (on_set_reference _ _ _ _ Hs HL Hidx), bind_Ok.
Qed.

(** X13: when the [Length] entry of the dictionary is a reference to a
    number object in the index, a store updates this number in the index
    and leaves the entry the reference. The number it writes is the size
    of the operators when the callback runs: of the new sequence for a
    push, of the sequence as it was before the store for an assignment or
    a store to [length]. When the index does not hold the reference, the
    store fails with [UnresolvedReference]. *)
Theorem store_follows_Length_reference (this : stream) ref
    (m : Mutation PDFOperator) :
  Forall slot (operators this) ->
  PDFDictionary.get "Length" (dictionary this)
    = Some (PDFDictionary.reference ref) ->
  (forall n,
     PDFDictionary.index (dictionary this) !! ref
       = Some (PDFDictionary.PDFNumber n) ->
     exists this' k,
       mutate this m = Ok this'
       /\ k = operators_size
                (match m with
                 | append _ => operators this'
                 | _ => operators this
                 end)
       /\ this' = with_Length_at ref (dictionary this) k (operators this')
       /\ PDFDictionary.get "Length" (dictionary this')
          = Some (PDFDictionary.reference ref)
       /\ Length_number this' = Ok (Some k))
  /\ (PDFDictionary.index (dictionary this) !! ref = None ->
      mutate this m = Err UnresolvedReference).
Proof.
  intros Hs HL. split.
  - intros n Hidx.
    destruct m as [i o | o | len]; cbn [mutate].
    + rewrite (proxy_set_reference _ _ _ _ Hs HL Hidx).
      do 2 eexists. split; [reflexivity |]. split; [reflexivity |].
      split; [done |]. by apply Length_number_with_Length_at.
    + unfold push. rewrite (proxy_set_reference _ _ _ _ Hs HL Hidx), bind_Ok.
      rewrite array_set_at_length.
      rewrite (proxy_set_reference _ _ ref (operators_size (operators this))).
      * rewrite with_Length_at_again. cbn [with_Length_at operators].
        rewrite resize_all_alt by (rewrite length_app; simpl; lia).
        do 2 eexists. split; [reflexivity |]. split; [reflexivity |].
        split; [done |]. by apply Length_number_with_Length_at.
      * apply Forall_app. split; [done |].
        constructor; [right; by exists o | constructor].
      * by apply Length_number_with_Length_at.
      * unfold with_Length_at; simpl. by rewrite lookup_insert_eq.
    + rewrite (proxy_set_reference _ _ _ _ Hs HL Hidx).
      do 2 eexists. split; [reflexivity |]. split; [reflexivity |].
      split; [done |]. by apply Length_number_with_Length_at.
  - intros Hidx. destruct m as [i o | o | len]; cbn [mutate].
    + cbn [proxy_set]. by rewrite (on_set_dangling _ _ ref).
    + unfold push. cbn [proxy_set]. by rewrite (on_set_dangling _ _ ref).
    + cbn [proxy_set]. by rewrite (on_set_dangling _ _ ref).
Qed.

End StoresFacts.

(** ** The bytes a content stream writes *)

Section Layout.
Import PDFContentStream Stores Bytes.
Context {PDFOperator : Type}.
Context `{!PDFObject.methods PDFOperator}.
Context `{!PDFObject.methods PDFDictionary.t}.

(** X14: when the dictionary writes the bytes [dict_bytes] and every
    operator [o] writes the bytes [enc o], [copyBytesInto] on any buffer
    is one store of the dictionary, a line feed, [stream], a line feed,
    the operators in the order of the sequence (empty slots left out), a
    line feed and [endstream]: with room for them these are the bytes
    between the start of the buffer and the view that is returned, and on
    a buffer that is too small the view that is returned is empty. *)
Theorem copyBytesInto_layout dict args ms (this : PDFContentStream.t PDFOperator)
    (dict_bytes : list byte) (enc : PDFOperator -> list byte) :
  build dict args ms = Ok this ->
  writes (dictionary this) dict_bytes ->
  (forall o, o ∈ present_operators (operators this) -> writes o (enc o)) ->
  let bytes := stream_bytes dict_bytes enc this in
  forall buffer : Uint8Array.t,
    copyBytesInto this buffer = Ok (write_bytes bytes buffer)
    /\ (well_formed buffer ->
        length bytes <= Uint8Array.length buffer ->
        Uint8Array.written buffer (write_bytes bytes buffer) = bytes)
    /\ (Uint8Array.length buffer <= length bytes ->
        Uint8Array.length (write_bytes bytes buffer) = 0).
Proof.
  intros Hb Hdict Hops bytes buffer.
  pose proof (build_invariant _ _ _ _ Hb) as Hinv.
  split; [| split].
  - apply copyBytesInto_write_bytes; [done | done |].
    apply Forall_forall; intros o Ho; by apply Hops.
  - by apply written_write_bytes.
  - intros Hsmall. rewrite write_bytes_inserts.
    unfold Uint8Array.length in *; simpl. rewrite length_inserts. lia.
Qed.

End Layout.

(** ** Object streams *)

Section ObjectStreams.
Import PDFObjectStream.
Context {PDFIndirectObject : Type}.

Local Abbreviation ovalue := (PDFObjectStream.JSValue PDFIndirectObject).

Lemma forallb_isInstance_PDFIndirectObject (objects : list ovalue) :
  forallb isInstance_PDFIndirectObject objects = true <->
  exists os : list PDFIndirectObject, objects = VIndirectObject <$> os.
Proof.
  split.
  - induction objects as [| v objects IH]; simpl; [by exists [] |].
    intros [Hv [os ->]%IH]%andb_prop. destruct v; try done.
    by eexists (_ :: os).
  - intros [os ->]. induction os; simpl; auto.
Qed.

(** X15: [PDFObjectStream.from] checks the dictionary before the objects.
    Without a [PDFDictionary] it fails with the dictionary's message,
    whatever the objects are; with one, it fails with the objects' message
    when some element is not a [PDFIndirectObject]; otherwise it returns a
    stream that holds the dictionary and the objects as given, the empty
    list included. *)
Theorem PDFObjectStream_from (dictionary : ovalue) (objects : list ovalue) :
  ((forall d, dictionary <> VDictionary d) ->
   from dictionary objects
   = Err (TypeValidation "PDFObjectStream.dictionary must be a PDFDictionary"))
  /\ ((exists d, dictionary = VDictionary d) ->
      (exists v, v ∈ objects /\ forall o, v <> VIndirectObject o) ->
      from dictionary objects
      = Err (TypeValidation
               "PDFObjectStream.objects must be an array of PDFIndirectObject"))
  /\ ((exists d, dictionary = VDictionary d) ->
      (exists os : list PDFIndirectObject, objects = VIndirectObject <$> os) ->
      from dictionary objects = Ok (PDFObjectStream.mk dictionary objects)).
Proof.
  unfold from, constructor, validate, validateArr.
  split; [| split].
  - intros Hd. destruct dictionary; try done. by destruct (Hd dict0).
  - intros [d ->] (v & Hin & Hv); simpl.
    destruct (forallb _ objects) eqn:Hall; [| done].
    apply forallb_isInstance_PDFIndirectObject in Hall as [os ->].
    apply list_elem_of_fmap in Hin as (o & -> & _). by destruct (Hv o).
  - intros [d ->] Hos; simpl.
    by rewrite (proj2 (forallb_isInstance_PDFIndirectObject _) Hos).
Qed.

End ObjectStreams.

(** ** The drawing helpers in a content stream *)

Section DrawnStreams.
Import PDFContentStream Stores Drawing.
Context `{!PDFObject.methods Operators.PDFOperator}.
Context `{!PDFObject.methods PDFDictionary.t}.

Lemma bind_group_draw (calls : list Call) :
  ((fun c => group (draw c)) <$> calls) ≫= members = calls ≫= draw.
Proof. induction calls as [| c calls IH]; [done |]. cbn. by rewrite IH. Qed.

(** X16: [PDFContentStream.of] on the arrays that calls of [drawRectangle]
    and [drawSquare] return never fails: the stream holds the operators of
    the calls one after the other, seven for each call, and its [Length]
    is the sum of their byte sizes. *)
Theorem of_drawing_calls dict (calls : list Call) :
  exists this,
    of_ dict ((fun c => VArray (VOperator <$> draw c)) <$> calls) = Ok this
    /\ operators this = VOperator <$> (calls ≫= draw)
    /\ length (operators this) = 7 * length calls
    /\ Length_number this
       = Ok (Some (sum_list (PDFObject.bytesSize <$> (calls ≫= draw)))).
Proof.
  eexists. unfold of_.
  replace ((fun c => VArray (VOperator <$> draw c)) <$> calls)
    with (to_value <$> ((fun c => group (draw c)) <$> calls))
    by (by rewrite <- list_fmap_compose).
  rewrite constructor_valid_synced, bind_group_draw.
  split; [reflexivity |]. split; [done |]. cbn [synced operators].
  split; [by rewrite length_fmap, length_draws |].
  by rewrite Length_number_synced, operators_size_fmap.
Qed.

End DrawnStreams.

(** ** More runs on the concrete encoding *)

Section RunsMore.
Import PDFContentStream Stores Bytes Example.

(** A push on a stream whose [Length] is stale: 1 becomes 11. *)
Lemma push_appends_witness :
  Length_number reassigned = Ok (Some 1)
  /\ exists this',
       build no_entries [VOperator (raw "q")]
         ([assign 0 (raw "0 0 1 1 re")] ++ [append (raw "Q")]) = Ok this'
       /\ operators this' = operators reassigned ++ [VOperator (raw "Q")]
       /\ Length_number this' = Ok (Some (operators_size (operators this')))
       /\ operators_size (operators this') = 10 + 1.
Proof.
  split; [vm_compute; reflexivity |].
  refine (push_appends no_entries [VOperator (raw "q")]
            [assign 0 (raw "0 0 1 1 re")] reassigned (raw "Q") _).
  vm_compute; reflexivity.
Defined.

(** An assignment of 10 bytes over 14: [Length] stays 17, the operators
    have 13 bytes. *)
Lemma assign_replaces_witness :
  exists this',
    build no_entries arguments (mutations ++ [assign 1 (raw "0 0 1 1 re")])
      = Ok this'
    /\ operators this' = <[1 := VOperator (raw "0 0 1 1 re")]> (operators drawn)
    /\ length (operators this') = 4
    /\ Length_number this' = Ok (Some 17)
    /\ operators_size (operators this') + 14 = 17 + 10.
Proof.
  refine (assign_replaces no_entries arguments mutations drawn 1
            (VOperator (raw "0 0 150 100 re")) (raw "0 0 1 1 re") _ _).
  - vm_compute; reflexivity.
  - reflexivity.
Defined.

Lemma assign_past_the_end_witness :
  exists this',
    build no_entries arguments (mutations ++ [assign 6 (raw "n")]) = Ok this'
    /\ operators this'
       = operators drawn ++ replicate 2 VUndefined ++ [VOperator (raw "n")]
    /\ length (operators this') = 7
    /\ Length_number this' = Ok (Some 17)
    /\ operators_size (operators this') = 17 + 1.
Proof.
  refine (assign_past_the_end no_entries arguments mutations drawn 6 (raw "n") _ _).
  - vm_compute; reflexivity.
  - simpl; lia.
Defined.

Lemma set_length_resizes_witness :
  exists this',
    build no_entries arguments (mutations ++ [set_length 2]) = Ok this'
    /\ operators this' = resize 2 VUndefined (operators drawn)
    /\ Length_number this' = Ok (Some 17)
    /\ operators_size (operators this') = 15
    /\ operators_size (operators this') <= 17
    /\ (4 <= 2 -> operators_size (operators this') = 17).
Proof.
  refine (set_length_resizes no_entries arguments mutations drawn 2 _).
  vm_compute; reflexivity.
Defined.

Lemma only_Length_is_written_witness :
  exists this,
    build page_contents [VOperator (raw "q")] [assign 0 (raw "0 0 1 1 re")]
      = Ok this
    /\ (forall key, key <> "Length" ->
          PDFDictionary.get key (dictionary this)
          = PDFDictionary.get key page_contents)
    /\ PDFDictionary.index (dictionary this) = PDFDictionary.index page_contents
    /\ exists n,
         PDFDictionary.get "Length" (dictionary this)
         = Some (PDFDictionary.direct (PDFDictionary.PDFNumber n)).
Proof.
  eexists. split; [vm_compute; reflexivity |].
  refine (only_Length_is_written page_contents [VOperator (raw "q")]
            [assign 0 (raw "0 0 1 1 re")] _ _).
  vm_compute; reflexivity.
Defined.

Lemma validateOperators_is_stricter_witness :
  constructor no_entries [VOperator (raw "q"); VOperator (raw "Q")]
  = Ok (synced no_entries [VOperator (raw "q"); VOperator (raw "Q")]).
Proof.
  apply (validateOperators_is_stricter no_entries
           [VOperator (raw "q"); VOperator (raw "Q")]).
  reflexivity.
Defined.

(** An assignment of 10 bytes over the 1 byte of a stream whose [Length]
    is a reference: the number in the index becomes 1. *)
Lemma store_follows_Length_reference_witness :
  exists this' k,
    mutate referring (assign 0 (raw "0 0 1 1 re")) = Ok this'
    /\ k = 1
    /\ this' = with_Length_at (7, 0) page_contents k (operators this')
    /\ PDFDictionary.get "Length" (dictionary this')
       = Some (PDFDictionary.reference (7, 0))
    /\ Length_number this' = Ok (Some k).
Proof.
  refine (proj1 (store_follows_Length_reference referring (7, 0)
                   (assign 0 (raw "0 0 1 1 re")) _ _) 99 _).
  - constructor; [right; by eexists | constructor].
  - vm_compute; reflexivity.
  - vm_compute; reflexivity.
Defined.

Lemma copyBytesInto_layout_witness :
  copyBytesInto drawn (Uint8Array.new 51)
  = Ok (write_bytes
          (list_byte_of_string
             ("<< /Length 17 >>" +:+ Utils.LF +:+ "stream" +:+ Utils.LF
              +:+ "q0 0 150 100 refQ" +:+ Utils.LF +:+ "endstream"))
          (Uint8Array.new 51))
  /\ Uint8Array.written (Uint8Array.new 51)
       (write_bytes
          (list_byte_of_string
             ("<< /Length 17 >>" +:+ Utils.LF +:+ "stream" +:+ Utils.LF
              +:+ "q0 0 150 100 refQ" +:+ Utils.LF +:+ "endstream"))
          (Uint8Array.new 51))
     = list_byte_of_string
         ("<< /Length 17 >>" +:+ Utils.LF +:+ "stream" +:+ Utils.LF
          +:+ "q0 0 150 100 refQ" +:+ Utils.LF +:+ "endstream")
  /\ Uint8Array.length
       (write_bytes
          (list_byte_of_string
             ("<< /Length 17 >>" +:+ Utils.LF +:+ "stream" +:+ Utils.LF
              +:+ "q0 0 150 100 refQ" +:+ Utils.LF +:+ "endstream"))
          (Uint8Array.new 51)) = 0.
Proof.
  assert (build no_entries arguments mutations = Ok drawn) as Hb
    by (vm_compute; reflexivity).
  pose proof
    (copyBytesInto_layout no_entries arguments mutations drawn
       (list_byte_of_string (dictionary_text (dictionary drawn)))
       (fun o => list_byte_of_string (encoding o))
       Hb
       (proj1 (dictionary_writes (dictionary drawn)))
       (fun o _ => proj1 (raw_writes o))
       (Uint8Array.new 51)) as (H1 & H2 & H3).
  split; [exact H1 | split].
  - refine (H2 _ _); vm_compute; lia.
  - refine (H3 _); vm_compute; lia.
Defined.

Lemma PDFObjectStream_from_witness :
  PDFObjectStream.from (PDFObjectStream.VObject : PDFObjectStream.JSValue nat)
    [PDFObjectStream.VUndefined]
  = Err (TypeValidation "PDFObjectStream.dictionary must be a PDFDictionary")
  /\ PDFObjectStream.from (PDFObjectStream.VDictionary no_entries)
       [PDFObjectStream.VIndirectObject 1; PDFObjectStream.VObject]
     = Err (TypeValidation
              "PDFObjectStream.objects must be an array of PDFIndirectObject")
  /\ PDFObjectStream.from (PDFObjectStream.VDictionary no_entries)
       [PDFObjectStream.VIndirectObject 1; PDFObjectStream.VIndirectObject 2]
     = Ok (PDFObjectStream.mk (PDFObjectStream.VDictionary no_entries)
             [PDFObjectStream.VIndirectObject 1;
              PDFObjectStream.VIndirectObject 2]).
Proof.
  split; [| split].
  - by apply (PDFObjectStream_from (PDFObjectStream.VObject) _).
  - apply (PDFObjectStream_from (PDFObjectStream.VDictionary no_entries) _).
    + by eexists.
    + exists PDFObjectStream.VObject. split; [| done].
      apply list_elem_of_lookup. by exists 1.
  - apply (PDFObjectStream_from (PDFObjectStream.VDictionary no_entries) _).
    + by eexists.
    + by exists [1; 2].
Defined.

End RunsMore.
